(** * openeizo: the HID driver for Eizo FlexScan monitors (eizo.c)

    A shallow embedding of the driver's protocol core: the 39-byte feature
    report built by [eizo_set_value] and [eizo_get_value], the sysfs
    attribute handlers [eizo_attr_store] and [eizo_attr_show], and the
    per-device data set up by [eizo_data_init].

    The driver's functions are written once, as programs over the kernel
    services they call (driver data lookup, kzalloc/kfree, the mutex, the
    raw HID request).  The programs are then run sequentially against a
    world, or interleaved as threads sharing one device. *)

From stdpp Require Import base option list strings.
From Stdlib Require Import ZArith Lia Strings.Byte Strings.Ascii DecimalString DecimalZ.
From coqutil Require Import Z.bitblast.

Local Open Scope Z_scope.

(** ** C integers and octets *)

(** Conversion to [int] (32 bits, two's complement; the kernel is built with
    wrapping signed arithmetic). *)
Definition to_int (z : Z) : Z := (z + 2 ^ 31) mod 2 ^ 32 - 2 ^ 31.

(** Conversion to [ushort]. *)
Definition to_ushort (z : Z) : Z := z mod 2 ^ 16.

Definition is_int (z : Z) : Prop := - 2 ^ 31 <= z < 2 ^ 31.

(** Conversion to [u8], as done by a store into a [u8] array. *)
Definition u8 (z : Z) : byte :=
  default x00 (Byte.of_N (Z.to_N (z mod 256))).

(** A [u8] read back, promoted to [int]. *)
Definition u8_val (b : byte) : Z := Z.of_N (Byte.to_N b).

#[export] Instance byte_inhabited : Inhabited byte := populate x00.

(** [report[i]] for a [u8 *report]. *)
Definition report_at (report : list byte) (i : nat) : Z :=
  u8_val (report !!! i).

(** ** errno values (include/uapi/asm-generic/errno*.h) *)

Definition EPERM : Z := 1.
Definition ENOMEM : Z := 12.
Definition EINVAL : Z := 22.
Definition ENODATA : Z := 61.
Definition ECOMM : Z := 70.

(** ** Kernel services used by the driver *)

Inductive report_type := HID_INPUT_REPORT | HID_OUTPUT_REPORT | HID_FEATURE_REPORT.
Inductive request_type := HID_REQ_GET_REPORT | HID_REQ_SET_REPORT.

(** The arguments of one [hid_hw_raw_request] call. *)
Record raw_call := RawCall {
  reportnum : Z;
  buf : list byte;
  len : Z;
  rtype : report_type;
  reqtype : request_type
}.

(** The [struct eizo_data *] stored as driver data of the device. *)
Inductive eizo_data_ptr := drvdata_ptr.

Inductive cmd : Type -> Type :=
| hid_get_drvdata : cmd (option eizo_data_ptr)
| kzalloc (size : nat) : cmd (option (list byte))
| kfree (p : list byte) : cmd unit
| mutex_lock (data : eizo_data_ptr) : cmd unit
| mutex_unlock (data : eizo_data_ptr) : cmd unit
| load_counter (data : eizo_data_ptr) : cmd Z
| hid_hw_raw_request (c : raw_call) : cmd (Z * list byte)
| hid_hw_wait : cmd unit
| hid_err (msg : string) : cmd unit.

(** Driver code: a tree of kernel calls ending in a return value. *)
Inductive prog (A : Type) : Type :=
| Ret (a : A)
| Do {X : Type} (c : cmd X) (k : X -> prog A).
Arguments Ret {A} a.
Arguments Do {A X} c k.

Fixpoint prog_bind {A B : Type} (f : A -> prog B) (p : prog A) : prog B :=
  match p with
  | Ret a => f a
  | Do c k => Do c (fun x => prog_bind f (k x))
  end.

#[export] Instance prog_ret : MRet prog := @Ret.
#[export] Instance prog_mbind : MBind prog := @prog_bind.

Definition call {X : Type} (c : cmd X) : prog X := Do c Ret.

(** What a run leaves behind, in program order.  An error message is logged
    by its format string. *)
Inductive event :=
| EvErr (msg : string)
| EvAlloc (size : nat) (ok : bool)
| EvFree (size : nat)
| EvLock
| EvUnlock
| EvRaw (c : raw_call) (ret : Z) (out : list byte)
| EvWait.

(** ** The protocol engine *)

(** The usage codes of eizo.h, kept abstract. *)
Class eizo_h := {
  EIZO_USAGE_BRIGHTNESS : Z;
  EIZO_USAGE_POWER : Z;
  EIZO_USAGE_GAMMA : Z;
  EIZO_USAGE_PROFILE : Z
}.

(** The stores [report[1..4] = usage], little-endian. *)
Definition put_usage (usage : Z) (report : list byte) : list byte :=
  let report := <[1%nat := u8 (Z.land (Z.shiftr usage 0) 255)]> report in
  let report := <[2%nat := u8 (Z.land (Z.shiftr usage 8) 255)]> report in
  let report := <[3%nat := u8 (Z.land (Z.shiftr usage 16) 255)]> report in
  let report := <[4%nat := u8 (Z.land (Z.shiftr usage 24) 255)]> report in
  report.

(** The stores [report[5..6] = counter]. *)
Definition put_counter (counter : Z) (report : list byte) : list byte :=
  let report := <[5%nat := u8 (Z.land (Z.shiftr counter 0) 255)]> report in
  let report := <[6%nat := u8 (Z.land (Z.shiftr counter 8) 255)]> report in
  report.

(** The stores [report[7..10] = value]. *)
Definition put_value (value : Z) (report : list byte) : list byte :=
  let report := <[7%nat := u8 (Z.land (Z.shiftr value 0) 255)]> report in
  let report := <[8%nat := u8 (Z.land (Z.shiftr value 8) 255)]> report in
  let report := <[9%nat := u8 (Z.land (Z.shiftr value 16) 255)]> report in
  let report := <[10%nat := u8 (Z.land (Z.shiftr value 24) 255)]> report in
  report.

(** [report[i] | report[i+1] << 8 | report[i+2] << 16 | report[i+3] << 24]
    as an [int]; [eizo_get_value] reads the value with [i = 7]. *)
Definition get_le32 (report : list byte) (i : nat) : Z :=
  to_int (Z.lor (Z.lor (Z.lor (report_at report i)
                              (Z.shiftl (report_at report (i + 1)) 8))
                       (Z.shiftl (report_at report (i + 2)) 16))
                (Z.shiftl (report_at report (i + 3)) 24)).

Definition eizo_set_value (usage value : Z) : prog Z :=
  data ← call hid_get_drvdata;
  match data with
  | None =>
      call (hid_err "failed to get eizo_data\n");;
      mret (- ENODATA)
  | Some data =>
      report ← call (kzalloc 39);
      match report with
      | None =>
          call (hid_err "failed to allocate hid report\n");;
          mret (- ENOMEM)
      | Some report =>
          call (mutex_lock data);;
          counter ← call (load_counter data);
          let counter := to_ushort counter in
          let report := put_usage usage report in
          let report := put_counter counter report in
          let report := put_value value report in
          '(ret, report) ← call (hid_hw_raw_request
             (RawCall 2 report 39 HID_FEATURE_REPORT HID_REQ_SET_REPORT));
          call hid_hw_wait;;
          if ret <? 0 then
            call (hid_err "failed to set hid report: %d\n");;
            call (mutex_unlock data);;
            call (kfree report);;
            mret (- ECOMM)
          else
            call (mutex_unlock data);;
            call (kfree report);;
            mret 0
      end
  end.

(** [value] is the content of the caller's [int] before the call; the result
    pairs the return code with its content after the call. *)
Definition eizo_get_value (usage value : Z) : prog (Z * Z) :=
  data ← call hid_get_drvdata;
  match data with
  | None =>
      call (hid_err "failed to get eizo_data\n");;
      mret (- ENODATA, value)
  | Some data =>
      report ← call (kzalloc 39);
      match report with
      | None => mret (- ENOMEM, value)
      | Some report =>
          call (mutex_lock data);;
          counter ← call (load_counter data);
          let counter := to_int counter in
          let report := put_usage usage report in
          let report := put_counter counter report in
          '(ret, report) ← call (hid_hw_raw_request
             (RawCall 3 report 39 HID_FEATURE_REPORT HID_REQ_SET_REPORT));
          call hid_hw_wait;;
          if ret <? 0 then
            call (hid_err "failed to set hid report: %d\n");;
            call (mutex_unlock data);;
            call (kfree report);;
            mret (- ECOMM, value)
          else
            '(ret, report) ← call (hid_hw_raw_request
               (RawCall 3 report 39 HID_FEATURE_REPORT HID_REQ_GET_REPORT));
            call hid_hw_wait;;
            if ret <? 0 then
              call (hid_err "failed to get hid report: %d\n");;
              call (mutex_unlock data);;
              call (kfree report);;
              mret (- ECOMM, value)
            else
              let value := get_le32 report 7 in
              call (mutex_unlock data);;
              call (kfree report);;
              mret (0, value)
      end
  end.

(** ** The attribute layer *)

(** [kstrtoint] of lib/kstrtox.c: the return code and the [int] it stores,
    which is meaningful when the return code is not negative. *)
Class kstrtox := {
  kstrtoint : string -> Z -> Z * Z
}.

Definition to_usage `{eizo_h} (attr_name : string) : Z :=
  if String.eqb attr_name "brightness" then to_int EIZO_USAGE_BRIGHTNESS
  else if String.eqb attr_name "power" then to_int EIZO_USAGE_POWER
  else if String.eqb attr_name "gamma" then to_int EIZO_USAGE_GAMMA
  else if String.eqb attr_name "profile" then to_int EIZO_USAGE_PROFILE
  else -1.

(** [count] is the length of the text written to the attribute, at most a
    page, so that returning it as [ssize_t] changes nothing. *)
Definition eizo_attr_store `{eizo_h, kstrtox}
    (attr_name buf : string) (count : Z) : prog Z :=
  let '(res, value) := kstrtoint buf 10 in
  if res <? 0 then mret (- EINVAL)
  else
    let usage := to_usage attr_name in
    if usage <? 0 then mret (- EINVAL)
    else
      res ← eizo_set_value usage value;
      if res <? 0 then mret (- EPERM)
      else mret count.

(** The text [sprintf(buf, "%d\n", value)] writes. *)
Definition sprintf_d_nl (value : Z) : string :=
  NilZero.string_of_int (Z.to_int value) +:+ String "010"%char EmptyString.

(** [value] is the content of the local [int value] on entry, [buf] that of
    the output page; the result pairs the return code with the page. *)
Definition eizo_attr_show `{eizo_h}
    (attr_name buf : string) (value : Z) : prog (Z * string) :=
  let usage := to_usage attr_name in
  if usage <? 0 then mret (- EINVAL, buf)
  else
    '(ret, value) ← eizo_get_value usage value;
    if ret <? 0 then mret (- ENODATA, buf)
    else
      let buf := sprintf_d_nl value in
      mret (Z.of_nat (String.length buf), buf).

(** ** Per-device data and the world the driver runs in *)

Record eizo_data := EizoData {
  lock : bool;      (* is the mutex held? *)
  counter : Z
}.

Definition eizo_data_init (data : eizo_data) : eizo_data :=
  let data := EizoData false (counter data) in   (* mutex_init *)
  EizoData (lock data) 1.

(** The low-level transport behind [hid_hw_raw_request]: given the call it
    answers with a return code and the bytes it puts into the buffer. *)
Class hid_ll_driver := {
  hw_state : Type;
  raw_request : hw_state -> raw_call -> Z * list byte * hw_state
}.

Record world `{hid_ll_driver} := World {
  drvdata : option eizo_data;
  free_mem : nat;
  hw : hw_state
}.
Arguments World {_} _ _ _.

(** The transport writes at most [n] bytes, from the start of the buffer. *)
Definition write_back (n : nat) (data report : list byte) : list byte :=
  let data := take n data in
  data ++ drop (length data) report.

Section Exec.
Context `{hid_ll_driver}.

Definition with_lock (b : bool) (w : world) : option world :=
  d ← drvdata w; Some (World (Some (EizoData b (counter d))) (free_mem w) (hw w)).

(** One kernel call: its result, the world after it and what it leaves
    in the log.  [None]: the caller cannot go on (a [mutex_lock] on a held
    mutex blocks; unlocking a free mutex or using absent data is a fault). *)
Definition exec_cmd {X : Type} (c : cmd X) (w : world)
    : option (X * world * list event) :=
  match c in cmd X return option (X * world * list event) with
  | hid_get_drvdata =>
      Some (match drvdata w with Some _ => Some drvdata_ptr | None => None end, w, [])
  | kzalloc size =>
      if decide (size <= free_mem w)%nat
      then Some (Some (replicate size x00),
                 World (drvdata w) (free_mem w - size) (hw w),
                 [EvAlloc size true])
      else Some (None, w, [EvAlloc size false])
  | kfree p =>
      Some (tt, World (drvdata w) (free_mem w + length p) (hw w),
            [EvFree (length p)])
  | mutex_lock _ =>
      d ← drvdata w;
      if lock d then None
      else w' ← with_lock true w; Some (tt, w', [EvLock])
  | mutex_unlock _ =>
      d ← drvdata w;
      if lock d then w' ← with_lock false w; Some (tt, w', [EvUnlock])
      else None
  | load_counter _ =>
      d ← drvdata w; Some (counter d, w, [])
  | hid_hw_raw_request c =>
      let '(ret, data, h) := raw_request (hw w) c in
      let out := write_back (Z.to_nat (len c)) data (buf c) in
      Some ((ret, out), World (drvdata w) (free_mem w) h, [EvRaw c ret out])
  | hid_hw_wait => Some (tt, w, [EvWait])
  | hid_err msg => Some (tt, w, [EvErr msg])
  end.

(** A program run to its end by one caller. *)
Fixpoint run {A : Type} (p : prog A) (w : world)
    : option (A * world * list event) :=
  match p with
  | Ret a => Some (a, w, [])
  | Do c k =>
      '(x, w, evs) ← exec_cmd c w;
      '(a, w, evs') ← run (k x) w;
      Some (a, w, evs ++ evs')
  end.

(** ** Attaching the device *)

(** The outcomes of the kernel calls made by the probe routine.  The calls
    that undo a failed probe ([hid_hw_close], [hid_hw_stop]) touch nothing
    the world keeps track of. *)
Record probe_env := ProbeEnv {
  devm_kzalloc_ok : bool;
  hid_parse_ret : Z;
  hid_hw_start_ret : Z;
  hid_hw_open_ret : Z;
  sysfs_create_group_ret : Z
}.

Definition eizo_hid_driver_probe (env : probe_env) (w : world) : Z * world :=
  if negb (devm_kzalloc_ok env) then (- ENOMEM, w)
  else
    let data := EizoData false 0 in              (* zeroed allocation *)
    let retval := hid_parse_ret env in
    if retval <? 0 then (retval, w)
    else
      let retval := hid_hw_start_ret env in
      if retval <? 0 then (retval, w)
      else
        let retval := hid_hw_open_ret env in
        if retval <? 0 then (retval, w)
        else
          let retval := sysfs_create_group_ret env in
          if retval <? 0 then (retval, w)
          else
            let data := eizo_data_init data in
            (0, World (Some data) (free_mem w) (hw w)).   (* hid_set_drvdata *)

(** ** Operations of the protocol engine, one after the other *)

Inductive op :=
| OpSet (usage value : Z)
| OpGet (usage value : Z).

Definition op_prog (o : op) : prog Z :=
  match o with
  | OpSet usage value => eizo_set_value usage value
  | OpGet usage value => r ← eizo_get_value usage value; mret r.1
  end.

Fixpoint run_ops (os : list op) (w : world) : option (list Z * world * list event) :=
  match os with
  | [] => Some ([], w, [])
  | o :: os =>
      '(r, w, evs) ← run (op_prog o) w;
      '(rs, w, evs') ← run_ops os w;
      Some (r :: rs, w, evs ++ evs')
  end.

(** The transport calls of a log. *)
Definition raw_calls (evs : list event) : list raw_call :=
  omap (fun e => match e with EvRaw c _ _ => Some c | _ => None end) evs.

(** ** Threads sharing the device *)

Inductive thread :=
| Thread (A : Type) (p : prog A).
Arguments Thread {A} p.

Record config := Config {
  pool : list thread;
  shared : world;
  log : list (nat * event)
}.

(** Thread [i] performs its next kernel call.  [None]: there is no such
    thread, it has returned, or it cannot go on (it waits for the mutex). *)
Definition thread_step (i : nat) (cfg : config) : option config :=
  t ← pool cfg !! i;
  match t with
  | Thread (Ret _) => None
  | Thread (Do c k) =>
      '(x, w, evs) ← exec_cmd c (shared cfg);
      Some (Config (<[i := Thread (k x)]> (pool cfg)) w
                   (log cfg ++ (pair i <$> evs)))
  end.

(** An interleaving: the scheduler picks the threads in the order [sched]. *)
Fixpoint interleave (sched : list nat) (cfg : config) : option config :=
  match sched with
  | [] => Some cfg
  | i :: sched => cfg ← thread_step i cfg; interleave sched cfg
  end.

Definition op_thread (o : op) : thread := Thread (op_prog o).

(** The threads that made the transport calls of a log, in order. *)
Definition raw_owners (lg : list (nat * event)) : list nat :=
  omap (fun ie => match ie.2 with EvRaw _ _ _ => Some ie.1 | _ => None end) lg.

End Exec.
Arguments Thread {A} p.

(** No thread's transport calls are separated by those of another thread. *)
Definition serialized (owners : list nat) : Prop :=
  forall l1 l2 l3 i j,
    owners = l1 ++ i :: l2 ++ i :: l3 -> j ∈ l2 -> j = i.

(** The frame both operations build in a fresh 39-byte buffer; [value] is
    left out by [eizo_get_value], whose frame has zero value bytes. *)
Definition frame (usage counter : Z) (value : option Z) : list byte :=
  let report := replicate 39 x00 in
  let report := put_usage usage report in
  let report := put_counter counter report in
  match value with
  | Some value => put_value value report
  | None => report
  end.

(** The frame layout in the words of the specification: byte 0 reserved,
    bytes 1-4 the usage, bytes 5-6 the sequence counter, bytes 7-10 the
    value, all little-endian, bytes 11-38 reserved and zero. *)
Fixpoint le_bytes (n : nat) (z : Z) : list byte :=
  match n with
  | O => []
  | S n => u8 z :: le_bytes n (z / 256)
  end.

Definition frame_layout (usage counter value : Z) : list byte :=
  [x00] ++ le_bytes 4 usage ++ le_bytes 2 counter ++ le_bytes 4 value
  ++ replicate 28 x00.

(** Bytes 5-6 of a report. *)
Definition counter_bytes (report : list byte) : list byte :=
  take 2 (drop 5 report).

(** The transport leaves bytes 5-6 of a report it is asked to send alone. *)
Definition keeps_counter_bytes `{hid_ll_driver} : Prop :=
  forall st c,
    reqtype c = HID_REQ_SET_REPORT ->
    counter_bytes (write_back (Z.to_nat (len c)) (raw_request st c).1.2 (buf c))
    = counter_bytes (buf c).

(** The frame an operation hands to the transport for session counter
    [counter]. *)
Definition op_frame (o : op) (counter : Z) : list byte :=
  match o with
  | OpSet usage value => frame usage (to_ushort counter) (Some value)
  | OpGet usage _ => frame usage (to_int counter) None
  end.

Definition op_reportnum (o : op) : Z :=
  match o with OpSet _ _ => 2 | OpGet _ _ => 3 end.

(** A transport call as operation [o] may make it: a 39-byte feature report
    on the operation's report identifier, which for a write is the frame
    the operation built. *)
Definition op_call (o : op) (c : raw_call) : Prop :=
  reportnum c = op_reportnum o /\
  length (buf c) = 39%nat /\
  len c = 39 /\
  rtype c = HID_FEATURE_REPORT /\
  (reqtype c = HID_REQ_SET_REPORT -> exists counter, buf c = op_frame o counter).

(** *** Where a thread stands with respect to the mutex *)

Inductive cmd_kind := KLock | KUnlock | KRaw (c : raw_call) | KOther.

Definition kind {X : Type} (c : cmd X) : cmd_kind :=
  match c with
  | mutex_lock _ => KLock
  | mutex_unlock _ => KUnlock
  | hid_hw_raw_request c => KRaw c
  | _ => KOther
  end.

(** What a kernel call can answer: [kzalloc] fails or gives zeroed memory,
    the transport writes into the buffer it was given. *)
Definition cmd_post {X : Type} (c : cmd X) : X -> Prop :=
  match c in cmd X return X -> Prop with
  | kzalloc size => fun x => x = None \/ x = Some (replicate size x00)
  | hid_hw_raw_request c =>
      fun x => exists data, x.2 = write_back (Z.to_nat (len c)) data (buf c)
  | _ => fun _ => True
  end.

(** After the critical section: no mutex or transport call is left. *)
Fixpoint after_cs {A : Type} (p : prog A) : Prop :=
  match p with
  | Ret _ => True
  | Do c k => kind c = KOther /\ forall x, after_cs (k x)
  end.

(** Inside the critical section: transport calls satisfying [P], then the
    unlock. *)
Fixpoint in_cs (P : raw_call -> Prop) {A : Type} (p : prog A) : Prop :=
  match p with
  | Ret _ => False
  | Do c k =>
      match kind c with
      | KLock => False
      | KUnlock => forall x, after_cs (k x)
      | KRaw rc => P rc /\ forall x, cmd_post c x -> in_cs P (k x)
      | KOther => forall x, cmd_post c x -> in_cs P (k x)
      end
  end.

(** Before the critical section: no transport call until the lock is taken. *)
Fixpoint before_cs (P : raw_call -> Prop) {A : Type} (p : prog A) : Prop :=
  match p with
  | Ret _ => True
  | Do c k =>
      match kind c with
      | KLock => forall x, in_cs P (k x)
      | KUnlock | KRaw _ => False
      | KOther => forall x, cmd_post c x -> before_cs P (k x)
      end
  end.

Inductive phase := Before | Inside | After.

Definition thread_in (P : raw_call -> Prop) (ph : phase) (t : thread) : Prop :=
  match t with
  | Thread p =>
      match ph with
      | Before => before_cs P p
      | Inside => in_cs P p
      | After => after_cs p
      end
  end.

Definition lock_held `{hid_ll_driver} (w : world) : Prop :=
  exists d, drvdata w = Some d /\ lock d = true.

(** The thread holding the mutex after the lock and unlock events of a log,
    [h] being the holder before. *)
Definition holder_from (h : option nat) (lg : list (nat * event)) : option nat :=
  foldl (fun h ie =>
           match ie.2 with
           | EvLock => Some ie.1
           | EvUnlock => None
           | _ => h
           end) h lg.

Definition holder (lg : list (nat * event)) : option nat := holder_from None lg.

(** Replaying a log: every transport call is made by the thread that holds
    the mutex at that point. *)
Fixpoint under_lock (h : option nat) (lg : list (nat * event)) : Prop :=
  match lg with
  | [] => True
  | (i, e) :: lg =>
      match e with
      | EvLock => under_lock (Some i) lg
      | EvUnlock => under_lock None lg
      | EvRaw _ _ _ => h = Some i /\ under_lock h lg
      | _ => under_lock h lg
      end
  end.

Definition raw_under_lock (lg : list (nat * event)) : Prop := under_lock None lg.

(** Events that are neither mutex nor transport events. *)
Definition quiet_event (e : event) : Prop :=
  match e with
  | EvLock | EvUnlock | EvRaw _ _ _ => False
  | _ => True
  end.

(** What holds of the threads of [os], in phases [phs], at every point of
    an interleaving. *)
Record inv `{hid_ll_driver}
    (os : list op) (phs : list phase) (cfg : config) : Prop := Inv {
  inv_len : length phs = length (pool cfg);
  inv_thread : forall i ph t,
    phs !! i = Some ph -> pool cfg !! i = Some t ->
    exists o, os !! i = Some o /\ thread_in (op_call o) ph t;
  inv_before : forall i,
    phs !! i = Some Before -> i ∉ raw_owners (log cfg);
  inv_inside : forall i,
    phs !! i = Some Inside ->
    lock_held (shared cfg) /\ holder (log cfg) = Some i /\
    exists l n, raw_owners (log cfg) = l ++ replicate n i /\ i ∉ l;
  inv_excl : forall i j,
    phs !! i = Some Inside -> phs !! j = Some Inside -> i = j;
  inv_ser : serialized (raw_owners (log cfg));
  inv_held : raw_under_lock (log cfg);
  inv_calls : forall i c ret out,
    (i, EvRaw c ret out) ∈ log cfg -> exists o, os !! i = Some o /\ op_call o c
}.

(** The state of the mutex after the lock and unlock events of a log. *)
Definition lock_after (evs : list event) (held : bool) : bool :=
  foldl (fun held e =>
           match e with EvLock => true | EvUnlock => false | _ => held end)
        held evs.

(** The names of the four settings. *)
Definition usage_names : list string :=
  ["brightness"; "power"; "gamma"; "profile"].

(** ** Stand-ins for the environment, used to run the driver on examples *)

(** Sample usage codes; the real ones are in eizo.h. *)
Definition sample_eizo_h : eizo_h := {|
  EIZO_USAGE_BRIGHTNESS := 0x00520001;
  EIZO_USAGE_POWER := 0x00520002;
  EIZO_USAGE_GAMMA := 0x00520003;
  EIZO_USAGE_PROFILE := 0x00520004
|}.

(** A device that keeps the last report written to it on report 2 and hands
    it back on a read; [rets] are the return codes of its next calls (then: the length
    of the report). *)
Record echo_state := EchoState {
  stored : list byte;
  rets : list Z
}.

Definition echo_request (st : echo_state) (c : raw_call)
    : Z * list byte * echo_state :=
  let ret := hd (len c) (rets st) in
  if ret <? 0 then (ret, [], EchoState (stored st) (tl (rets st)))
  else
    match reqtype c with
    | HID_REQ_SET_REPORT =>
        (ret, [], EchoState (if reportnum c =? 2 then buf c else stored st)
                            (tl (rets st)))
    | HID_REQ_GET_REPORT => (ret, stored st, EchoState (stored st) (tl (rets st)))
    end.

Definition echo_driver : hid_ll_driver := {|
  hw_state := echo_state;
  raw_request := echo_request
|}.

(** [kstrtoint] for base 10, after lib/kstrtox.c: an optional sign, decimal
    digits, an optional final newline; the value must fit an [int]. *)
Definition ERANGE : Z := 34.

Definition digit_of (a : ascii) : option Z :=
  let n := Z.of_nat (nat_of_ascii a) in
  if (48 <=? n) && (n <=? 57) then Some (n - 48) else None.

Fixpoint parse_integer (s : string) (acc : Z) (n : nat) : nat * Z * string :=
  match s with
  | String a s' =>
      match digit_of a with
      | Some d => parse_integer s' (acc * 10 + d) (S n)
      | None => (n, acc, s)
      end
  | EmptyString => (n, acc, s)
  end.

Definition kstrtoull10 (s : string) : Z * Z :=
  let '(n, v, rest) := parse_integer s 0 0 in
  if 2 ^ 64 <=? v then (- ERANGE, 0)
  else if (n =? 0)%nat then (- EINVAL, 0)
  else
    let rest := match rest with
                | String "010"%char rest' => rest'
                | _ => rest
                end in
    match rest with
    | EmptyString => (0, v)
    | _ => (- EINVAL, 0)
    end.

Definition kstrtoll10 (s : string) : Z * Z :=
  match s with
  | String "-"%char s' =>
      let '(rv, tmp) := kstrtoull10 s' in
      if rv <? 0 then (rv, 0)
      else if 2 ^ 63 <? tmp then (- ERANGE, 0)
      else (0, - tmp)
  | _ =>
      let s := match s with String "+"%char s' => s' | _ => s end in
      let '(rv, tmp) := kstrtoull10 s in
      if rv <? 0 then (rv, 0)
      else if 2 ^ 63 <=? tmp then (- ERANGE, 0)
      else (0, tmp)
  end.

Definition kstrtoint10 (s : string) : Z * Z :=
  let '(rv, tmp) := kstrtoll10 s in
  if rv <? 0 then (rv, 0)
  else if tmp =? to_int tmp then (0, tmp)
  else (- ERANGE, 0).

Definition linux_kstrtox : kstrtox := {|
  kstrtoint s base := kstrtoint10 s
|}.

(** *** Worlds and schedules for the examples *)

(** An attached device with memory to spare; [rets] scripts the transport. *)
Definition attached_world (rets : list Z) : @world echo_driver :=
  @World echo_driver (Some (EizoData false 1)) 128 (EchoState [] rets).

(** A device without driver data. *)
Definition detached_world : @world echo_driver :=
  @World echo_driver None 128 (EchoState [] []).

(** A probe in which every kernel call succeeds. *)
Definition probe_ok : probe_env := ProbeEnv true 0 0 0 0.

(** A set and a get, as two threads, and one way to interleave them: both
    look up the driver data and allocate, the set goes through its critical
    section, the get takes the mutex as soon as it is free. *)
Definition two_ops : list op := [OpSet 0x00520001 150; OpGet 0x00520001 0].

Definition two_ops_sched : list nat :=
  [0; 1; 0; 1; 0; 0; 0; 0; 0; 1; 0; 1; 1; 1; 1; 1; 1; 1]%nat.

(** ** The life cycle of the device: probe and remove *)

(** The kernel calls of the probe and remove routines, with their outcome
    where the routines look at it. *)
Inductive lifecycle_call :=
| CallDevmKzalloc (ok : bool)
| CallHidParse (ret : Z)
| CallHidHwStart (ret : Z)
| CallHidHwOpen (ret : Z)
| CallSysfsCreateGroup (ret : Z)
| CallMutexInit
| CallHidSetDrvdata
| CallHidGetDrvdata
| CallMutexDestroy
| CallSysfsRemoveGroup
| CallHidHwClose
| CallHidHwStop
| CallHidErr (msg : string).

(** The probe routine once more, now with every kernel call it makes on the
    way, the [goto] targets [close], [stop] and [exit] included. *)
Definition eizo_hid_driver_probe_calls (env : probe_env)
    : Z * list lifecycle_call :=
  let exit := fun retval calls => (retval, calls) in
  let stop := fun retval calls => exit retval (calls ++ [CallHidHwStop]) in
  let close := fun retval calls => stop retval (calls ++ [CallHidHwClose]) in
  let calls := [CallDevmKzalloc (devm_kzalloc_ok env)] in
  if negb (devm_kzalloc_ok env) then
    exit (- ENOMEM) (calls ++ [CallHidErr "failed to allocate eizo_data\n"])
  else
    let retval := hid_parse_ret env in
    let calls := calls ++ [CallHidParse retval] in
    if retval <? 0 then
      exit retval (calls ++ [CallHidErr "hid_parse failed\n"])
    else
      let retval := hid_hw_start_ret env in
      let calls := calls ++ [CallHidHwStart retval] in
      if retval <? 0 then
        exit retval (calls ++ [CallHidErr "hid_hw_start failed\n"])
      else
        let retval := hid_hw_open_ret env in
        let calls := calls ++ [CallHidHwOpen retval] in
        if retval <? 0 then
          stop retval (calls ++ [CallHidErr "hid_hw_open failed\n"])
        else
          let retval := sysfs_create_group_ret env in
          let calls := calls ++ [CallSysfsCreateGroup retval] in
          if retval <? 0 then
            close retval (calls ++ [CallHidErr "sysfs_create_group failed\n"])
          else
            (0, calls ++ [CallMutexInit; CallHidSetDrvdata]).

(** The kernel calls of the remove routine. *)
Definition eizo_hid_driver_remove : list lifecycle_call :=
  [CallHidGetDrvdata; CallMutexDestroy; CallSysfsRemoveGroup;
   CallHidHwClose; CallHidHwStop].

(** What a device holds while it is being set up or torn down. *)
Inductive resource := Started | Opened | Group | Mutex.

(** Replaying life-cycle calls over the stack of what is held: a call that
    succeeds in acquiring pushes, a releasing call must find its resource on
    top.  [None]: something was released that was not the last thing
    acquired. *)
Fixpoint held_after (calls : list lifecycle_call) (held : list resource)
    : option (list resource) :=
  match calls with
  | [] => Some held
  | c :: calls =>
      match c with
      | CallHidHwStart ret =>
          held_after calls (if ret <? 0 then held else Started :: held)
      | CallHidHwOpen ret =>
          held_after calls (if ret <? 0 then held else Opened :: held)
      | CallSysfsCreateGroup ret =>
          held_after calls (if ret <? 0 then held else Group :: held)
      | CallMutexInit => held_after calls (Mutex :: held)
      | CallMutexDestroy =>
          match held with Mutex :: held => held_after calls held | _ => None end
      | CallSysfsRemoveGroup =>
          match held with Group :: held => held_after calls held | _ => None end
      | CallHidHwClose =>
          match held with Opened :: held => held_after calls held | _ => None end
      | CallHidHwStop =>
          match held with Started :: held => held_after calls held | _ => None end
      | _ => held_after calls held
      end
  end.

(** ** More on logs and threads *)

(** Every transport call of a log is followed at once by [hid_hw_wait]. *)
Fixpoint waits_follow (evs : list event) : Prop :=
  match evs with
  | [] => True
  | EvRaw _ _ _ :: evs =>
      match evs with
      | EvWait :: _ => waits_follow evs
      | _ => False
      end
  | _ :: evs => waits_follow evs
  end.

(** The most transport calls an operation makes. *)
Definition op_max_calls (o : op) : nat :=
  match o with OpSet _ _ => 1 | OpGet _ _ => 2 end.

Definition returned (t : thread) : bool :=
  match t with
  | Thread (Ret _) => true
  | Thread (Do _ _) => false
  end.

(** The invariant of interleavings, with what progress needs: the driver
    data stays in place and a held mutex has a thread inside. *)
Definition inv_live `{hid_ll_driver}
    (os : list op) (phs : list phase) (cfg : config) : Prop :=
  inv os phs cfg /\
  is_Some (drvdata (shared cfg)) /\
  (lock_held (shared cfg) -> exists i, phs !! i = Some Inside).

(** A program that returns after at most [n] kernel calls, whatever they
    answer. *)
Fixpoint bounded {A : Type} (n : nat) (p : prog A) : Prop :=
  match p with
  | Ret _ => True
  | Do c k =>
      match n with
      | O => False
      | S n => forall x, bounded n (k x)
      end
  end.

Definition thread_bounded (n : nat) (t : thread) : Prop :=
  match t with Thread p => bounded n p end.

(** The most kernel calls an operation makes. *)
Definition op_max_steps (o : op) : nat :=
  match o with OpSet _ _ => 9 | OpGet _ _ => 11 end.

(** Usage codes on a vendor page, with the top bit set. *)
Definition vendor_page_eizo_h : eizo_h := {|
  EIZO_USAGE_BRIGHTNESS := 0xff300052;
  EIZO_USAGE_POWER := 0xff300053;
  EIZO_USAGE_GAMMA := 0xff300054;
  EIZO_USAGE_PROFILE := 0xff300055
|}.

(** An echo device in any state a driver may find it in. *)
Definition echo_world (d : eizo_data) (mem : nat) (st : echo_state)
    : @world echo_driver :=
  @World echo_driver (Some d) mem st.

(** * Properties *)

(** ** Octets and little-endian fields *)

Lemma u8_val_u8 z : u8_val (u8 z) = z mod 256.
Proof.
  unfold u8_val, u8.
  destruct (Byte.of_N (Z.to_N (z mod 256))) as [b|] eqn:E; simpl.
  - apply Byte.to_of_N in E. rewrite E, Z2N.id; [done|].
    apply Z.mod_pos_bound; lia.
  - apply Byte.of_N_None_iff in E.
    pose proof (Z.mod_pos_bound z 256). lia.
Qed.

Lemma u8_mod z : u8 (z mod 256) = u8 z.
Proof. unfold u8. by rewrite Z.mod_mod. Qed.

Lemma u8_shift z k :
  0 <= k -> u8 (Z.land (Z.shiftr z k) 255) = u8 (z / 2 ^ k).
Proof.
  intros Hk. change 255 with (Z.ones 8).
  rewrite Z.land_ones, Z.shiftr_div_pow2 by lia. apply u8_mod.
Qed.

Lemma to_int_is_int z : is_int (to_int z).
Proof.
  unfold is_int, to_int.
  pose proof (Z.mod_pos_bound (z + 2 ^ 31) (2 ^ 32)). lia.
Qed.

Lemma to_int_id z : is_int z -> to_int z = z.
Proof.
  unfold is_int, to_int. intros Hz.
  rewrite Z.mod_small by lia. lia.
Qed.

Lemma to_int_mod z : to_int (z mod 2 ^ 32) = to_int z.
Proof.
  unfold to_int. by rewrite Zplus_mod_idemp_l.
Qed.

Lemma le32_combine v :
  Z.lor (Z.lor (Z.lor (Z.land (Z.shiftr v 0) 255 mod 256)
                      (Z.shiftl (Z.land (Z.shiftr v 8) 255 mod 256) 8))
               (Z.shiftl (Z.land (Z.shiftr v 16) 255 mod 256) 16))
        (Z.shiftl (Z.land (Z.shiftr v 24) 255 mod 256) 24)
  = v mod 2 ^ 32.
Proof.
  change 255 with (Z.ones 8). change 256 with (2 ^ 8).
  rewrite !Z.land_ones by lia.
  rewrite <- !Z.land_ones by lia.
  Z.bitblast.
Qed.

(** The frame, byte by byte. *)
Lemma frame_bytes usage counter value :
  frame usage counter (Some value) =
  [x00;
   u8 (Z.land (Z.shiftr usage 0) 255); u8 (Z.land (Z.shiftr usage 8) 255);
   u8 (Z.land (Z.shiftr usage 16) 255); u8 (Z.land (Z.shiftr usage 24) 255);
   u8 (Z.land (Z.shiftr counter 0) 255); u8 (Z.land (Z.shiftr counter 8) 255);
   u8 (Z.land (Z.shiftr value 0) 255); u8 (Z.land (Z.shiftr value 8) 255);
   u8 (Z.land (Z.shiftr value 16) 255); u8 (Z.land (Z.shiftr value 24) 255)]
  ++ replicate 28 x00.
Proof. reflexivity. Qed.

Lemma frame_bytes_get usage counter :
  frame usage counter None =
  [x00;
   u8 (Z.land (Z.shiftr usage 0) 255); u8 (Z.land (Z.shiftr usage 8) 255);
   u8 (Z.land (Z.shiftr usage 16) 255); u8 (Z.land (Z.shiftr usage 24) 255);
   u8 (Z.land (Z.shiftr counter 0) 255); u8 (Z.land (Z.shiftr counter 8) 255)]
  ++ replicate 32 x00.
Proof. reflexivity. Qed.

Lemma length_frame usage counter value :
  length (frame usage counter value) = 39%nat.
Proof. destruct value; reflexivity. Qed.

Lemma le_bytes_4 z :
  le_bytes 4 z =
  [u8 (Z.land (Z.shiftr z 0) 255); u8 (Z.land (Z.shiftr z 8) 255);
   u8 (Z.land (Z.shiftr z 16) 255); u8 (Z.land (Z.shiftr z 24) 255)].
Proof.
  rewrite !u8_shift by lia. cbn [le_bytes].
  rewrite !Z.div_div by lia. by rewrite Z.div_1_r.
Qed.

Lemma le_bytes_2 z :
  le_bytes 2 z =
  [u8 (Z.land (Z.shiftr z 0) 255); u8 (Z.land (Z.shiftr z 8) 255)].
Proof.
  rewrite !u8_shift by lia. cbn [le_bytes]. by rewrite Z.div_1_r.
Qed.

Lemma frame_layout_set usage counter value :
  frame usage counter (Some value) = frame_layout usage counter value.
Proof.
  unfold frame_layout. by rewrite frame_bytes, !le_bytes_4, le_bytes_2.
Qed.

Lemma frame_layout_get usage counter :
  frame usage counter None = frame_layout usage counter 0.
Proof.
  unfold frame_layout. rewrite frame_bytes_get, !le_bytes_4, le_bytes_2.
  reflexivity.
Qed.

Lemma get_le32_frame_value usage counter value :
  get_le32 (frame usage counter (Some value)) 7 = to_int value.
Proof.
  rewrite frame_bytes. unfold get_le32, report_at. cbn [lookup_total list_lookup_total app Nat.add].
  rewrite !u8_val_u8, le32_combine. apply to_int_mod.
Qed.

Lemma get_le32_frame_usage usage counter value :
  get_le32 (frame usage counter value) 1 = to_int usage.
Proof.
  destruct value; [rewrite frame_bytes|rewrite frame_bytes_get];
    unfold get_le32, report_at; cbn [lookup_total list_lookup_total app Nat.add];
    rewrite !u8_val_u8, le32_combine; apply to_int_mod.
Qed.

(** Case analysis on membership in an explicit list. *)
Ltac inv_elem_of H :=
  repeat (apply elem_of_cons in H as [H|H]; [simplify_eq|]);
  try (by apply elem_of_nil in H).

(** ** Sequential runs of the protocol engine *)

Section Runs.
Context `{hid_ll_driver}.

#[local] Arguments put_usage : simpl never.
#[local] Arguments put_counter : simpl never.
#[local] Arguments put_value : simpl never.
#[local] Arguments replicate : simpl never.
#[local] Arguments write_back : simpl never.
#[local] Arguments to_ushort : simpl never.
#[local] Arguments to_int : simpl never.
#[local] Arguments get_le32 : simpl never.
#[local] Arguments Z.to_nat : simpl never.
#[local] Arguments Z.ltb : simpl never.
#[local] Arguments Z.opp : simpl never.

Lemma length_write_back n data report :
  (n <= length report)%nat -> length (write_back n data report) = length report.
Proof.
  intros Hn. unfold write_back.
  rewrite length_app, length_drop, length_take. lia.
Qed.

Lemma length_write_back_frame data usage counter value :
  length (write_back (Z.to_nat 39) data (frame usage counter value)) = 39%nat.
Proof.
  rewrite length_write_back; rewrite length_frame; [done|].
  change (Z.to_nat 39) with 39%nat. lia.
Qed.

Lemma write_back_nil n report : write_back n [] report = report.
Proof. unfold write_back. by rewrite take_nil. Qed.

Lemma run_set_nodata usage value w :
  drvdata w = None ->
  run (eizo_set_value usage value) w
  = Some (- ENODATA, w, [EvErr "failed to get eizo_data\n"]).
Proof. intros Hd. unfold eizo_set_value. cbn. by rewrite Hd. Qed.

Lemma run_set_nomem usage value w d :
  drvdata w = Some d -> ~ (39 <= free_mem w)%nat ->
  run (eizo_set_value usage value) w
  = Some (- ENOMEM, w, [EvAlloc 39 false; EvErr "failed to allocate hid report\n"]).
Proof.
  intros Hd Hm. unfold eizo_set_value. cbn. rewrite Hd. cbn.
  by destruct (decide (39 <= free_mem w)%nat).
Qed.

Lemma run_set_blocked usage value w d :
  drvdata w = Some d -> lock d = true -> (39 <= free_mem w)%nat ->
  run (eizo_set_value usage value) w = None.
Proof.
  intros Hd Hl Hm.
  destruct w as [dd fm hh], d as [lk cnt]. simpl in *. subst dd lk.
  unfold eizo_set_value. cbn.
  by destruct (decide (39 <= fm)%nat); [|lia].
Qed.

Lemma run_set_sent usage value w d ret data h :
  drvdata w = Some d -> lock d = false -> (39 <= free_mem w)%nat ->
  let c := RawCall 2 (frame usage (to_ushort (counter d)) (Some value)) 39
                   HID_FEATURE_REPORT HID_REQ_SET_REPORT in
  let out := write_back (Z.to_nat 39) data (buf c) in
  raw_request (hw w) c = (ret, data, h) ->
  run (eizo_set_value usage value) w
  = Some (if ret <? 0 then - ECOMM else 0,
          World (drvdata w) (free_mem w) h,
          [EvAlloc 39 true; EvLock; EvRaw c ret out; EvWait]
          ++ (if ret <? 0 then [EvErr "failed to set hid report: %d\n"] else [])
          ++ [EvUnlock; EvFree 39]).
Proof.
  intros Hd Hl Hm c out Hr. subst c out. unfold frame in *.
  destruct w as [dd fm hh], d as [lk cnt]. simpl in *. subst dd lk.
  unfold eizo_set_value. cbn.
  destruct (decide (39 <= fm)%nat); [|lia]. cbn.
  rewrite Hr. cbn.
  pose proof (length_write_back_frame data usage (to_ushort cnt) (Some value)) as Hlen.
  unfold frame in Hlen.
  destruct (ret <? 0); cbn; rewrite Hlen; repeat f_equal; lia.
Qed.

Lemma run_get_nodata usage value w :
  drvdata w = None ->
  run (eizo_get_value usage value) w
  = Some ((- ENODATA, value), w, [EvErr "failed to get eizo_data\n"]).
Proof. intros Hd. unfold eizo_get_value. cbn. by rewrite Hd. Qed.

Lemma run_get_nomem usage value w d :
  drvdata w = Some d -> ~ (39 <= free_mem w)%nat ->
  run (eizo_get_value usage value) w
  = Some ((- ENOMEM, value), w, [EvAlloc 39 false]).
Proof.
  intros Hd Hm. unfold eizo_get_value. cbn. rewrite Hd. cbn.
  by destruct (decide (39 <= free_mem w)%nat).
Qed.

Lemma run_get_blocked usage value w d :
  drvdata w = Some d -> lock d = true -> (39 <= free_mem w)%nat ->
  run (eizo_get_value usage value) w = None.
Proof.
  intros Hd Hl Hm.
  destruct w as [dd fm hh], d as [lk cnt]. simpl in *. subst dd lk.
  unfold eizo_get_value. cbn.
  by destruct (decide (39 <= fm)%nat); [|lia].
Qed.

Lemma run_get_write_failed usage value w d ret data h :
  drvdata w = Some d -> lock d = false -> (39 <= free_mem w)%nat ->
  let c := RawCall 3 (frame usage (to_int (counter d)) None) 39
                   HID_FEATURE_REPORT HID_REQ_SET_REPORT in
  let out := write_back (Z.to_nat 39) data (buf c) in
  raw_request (hw w) c = (ret, data, h) ->
  ret < 0 ->
  run (eizo_get_value usage value) w
  = Some ((- ECOMM, value),
          World (drvdata w) (free_mem w) h,
          [EvAlloc 39 true; EvLock; EvRaw c ret out; EvWait;
           EvErr "failed to set hid report: %d\n"; EvUnlock; EvFree 39]).
Proof.
  intros Hd Hl Hm c out Hr Hret. subst c out. unfold frame in *.
  destruct w as [dd fm hh], d as [lk cnt]. simpl in *. subst dd lk.
  unfold eizo_get_value. cbn.
  destruct (decide (39 <= fm)%nat); [|lia]. cbn.
  rewrite Hr. cbn.
  pose proof (length_write_back_frame data usage (to_int cnt) None) as Hlen.
  unfold frame in Hlen.
  destruct (Z.ltb_spec ret 0); [|lia]. cbn. rewrite Hlen.
  repeat f_equal; lia.
Qed.

Lemma run_get_read usage value w d ret data h ret' data' h' :
  drvdata w = Some d -> lock d = false -> (39 <= free_mem w)%nat ->
  let c := RawCall 3 (frame usage (to_int (counter d)) None) 39
                   HID_FEATURE_REPORT HID_REQ_SET_REPORT in
  let out := write_back (Z.to_nat 39) data (buf c) in
  let c' := RawCall 3 out 39 HID_FEATURE_REPORT HID_REQ_GET_REPORT in
  let out' := write_back (Z.to_nat 39) data' out in
  raw_request (hw w) c = (ret, data, h) ->
  0 <= ret ->
  raw_request h c' = (ret', data', h') ->
  run (eizo_get_value usage value) w
  = Some (if ret' <? 0 then (- ECOMM, value) else (0, get_le32 out' 7),
          World (drvdata w) (free_mem w) h',
          [EvAlloc 39 true; EvLock; EvRaw c ret out; EvWait;
           EvRaw c' ret' out'; EvWait]
          ++ (if ret' <? 0 then [EvErr "failed to get hid report: %d\n"] else [])
          ++ [EvUnlock; EvFree 39]).
Proof.
  intros Hd Hl Hm c out c' out' Hr Hret Hr'. subst c' out' c out. unfold frame in *.
  destruct w as [dd fm hh], d as [lk cnt]. simpl in *. subst dd lk.
  unfold eizo_get_value. cbn.
  destruct (decide (39 <= fm)%nat); [|lia]. cbn.
  rewrite Hr. cbn.
  pose proof (length_write_back_frame data usage (to_int cnt) None) as Hlen.
  unfold frame in Hlen.
  destruct (Z.ltb_spec ret 0); [lia|]. cbn.
  rewrite Hr'. cbn.
  assert (length (write_back (Z.to_nat 39) data'
            (write_back (Z.to_nat 39) data
               (put_counter (to_int cnt)
                  (put_usage usage (replicate 39 x00))))) = 39%nat) as Hlen'.
  { rewrite length_write_back; [done|]. rewrite Hlen.
    change (Z.to_nat 39) with 39%nat. lia. }
  destruct (ret' <? 0); cbn; rewrite Hlen'; repeat f_equal; lia.
Qed.

(** Every run of [eizo_set_value] is one of the four above. *)
Lemma run_set_inv usage value w r w' evs :
  run (eizo_set_value usage value) w = Some (r, w', evs) ->
  (drvdata w = None /\ r = - ENODATA /\ w' = w /\ raw_calls evs = []) \/
  (exists d, drvdata w = Some d /\ ~ (39 <= free_mem w)%nat /\
     r = - ENOMEM /\ w' = w /\ raw_calls evs = []) \/
  (exists d ret data h,
     let c := RawCall 2 (frame usage (to_ushort (counter d)) (Some value)) 39
                      HID_FEATURE_REPORT HID_REQ_SET_REPORT in
     let out := write_back (Z.to_nat 39) data (buf c) in
     drvdata w = Some d /\ lock d = false /\ (39 <= free_mem w)%nat /\
     raw_request (hw w) c = (ret, data, h) /\
     r = (if ret <? 0 then - ECOMM else 0) /\
     w' = World (drvdata w) (free_mem w) h /\
     evs = [EvAlloc 39 true; EvLock; EvRaw c ret out; EvWait]
           ++ (if ret <? 0 then [EvErr "failed to set hid report: %d\n"] else [])
           ++ [EvUnlock; EvFree 39]).
Proof.
  intros Hrun.
  destruct (drvdata w) as [d|] eqn:Hd.
  2:{ rewrite run_set_nodata in Hrun by done. left. by simplify_eq. }
  right.
  destruct (decide (39 <= free_mem w)%nat) as [Hm|Hm].
  2:{ erewrite run_set_nomem in Hrun by done. left. exists d. by simplify_eq. }
  right.
  destruct (lock d) eqn:Hl.
  { by erewrite run_set_blocked in Hrun. }
  destruct (raw_request (hw w)
    (RawCall 2 (frame usage (to_ushort (counter d)) (Some value)) 39
       HID_FEATURE_REPORT HID_REQ_SET_REPORT)) as [[ret data] h] eqn:Hr.
  erewrite run_set_sent in Hrun by done. simplify_eq.
  exists d, ret, data, h. cbn zeta. rewrite Hr, Hd. done.
Qed.

(** Every run of [eizo_get_value] is one of the five above. *)
Lemma run_get_inv usage value w r w' evs :
  run (eizo_get_value usage value) w = Some (r, w', evs) ->
  (drvdata w = None /\ r = (- ENODATA, value) /\ w' = w /\ raw_calls evs = []) \/
  (exists d, drvdata w = Some d /\ ~ (39 <= free_mem w)%nat /\
     r = (- ENOMEM, value) /\ w' = w /\ raw_calls evs = []) \/
  (exists d ret data h,
     let c := RawCall 3 (frame usage (to_int (counter d)) None) 39
                      HID_FEATURE_REPORT HID_REQ_SET_REPORT in
     let out := write_back (Z.to_nat 39) data (buf c) in
     drvdata w = Some d /\ lock d = false /\ (39 <= free_mem w)%nat /\
     raw_request (hw w) c = (ret, data, h) /\
     ((ret < 0 /\ r = (- ECOMM, value) /\
       w' = World (drvdata w) (free_mem w) h /\
       evs = [EvAlloc 39 true; EvLock; EvRaw c ret out; EvWait;
              EvErr "failed to set hid report: %d\n"; EvUnlock; EvFree 39]) \/
      (exists ret' data' h',
         let c' := RawCall 3 out 39 HID_FEATURE_REPORT HID_REQ_GET_REPORT in
         let out' := write_back (Z.to_nat 39) data' out in
         0 <= ret /\
         raw_request h c' = (ret', data', h') /\
         r = (if ret' <? 0 then (- ECOMM, value) else (0, get_le32 out' 7)) /\
         w' = World (drvdata w) (free_mem w) h' /\
         evs = [EvAlloc 39 true; EvLock; EvRaw c ret out; EvWait;
                EvRaw c' ret' out'; EvWait]
               ++ (if ret' <? 0 then [EvErr "failed to get hid report: %d\n"] else [])
               ++ [EvUnlock; EvFree 39]))).
Proof.
  intros Hrun.
  destruct (drvdata w) as [d|] eqn:Hd.
  2:{ rewrite run_get_nodata in Hrun by done. left. by simplify_eq. }
  right.
  destruct (decide (39 <= free_mem w)%nat) as [Hm|Hm].
  2:{ erewrite run_get_nomem in Hrun by done. left. exists d. by simplify_eq. }
  right.
  destruct (lock d) eqn:Hl.
  { by erewrite run_get_blocked in Hrun. }
  destruct (raw_request (hw w)
    (RawCall 3 (frame usage (to_int (counter d)) None) 39
       HID_FEATURE_REPORT HID_REQ_SET_REPORT)) as [[ret data] h] eqn:Hr.
  exists d, ret, data, h. cbn zeta. rewrite Hr.
  do 4 (split; [done|]).
  destruct (Z.lt_ge_cases ret 0) as [Hret|Hret].
  - erewrite run_get_write_failed in Hrun by done. simplify_eq.
    left. by rewrite Hd.
  - right.
    destruct (raw_request h
      (RawCall 3 (write_back (Z.to_nat 39) data
                    (frame usage (to_int (counter d)) None)) 39
         HID_FEATURE_REPORT HID_REQ_GET_REPORT)) as [[ret' data'] h'] eqn:Hr'.
    erewrite run_get_read in Hrun by done. simplify_eq.
    exists ret', data', h'. cbn zeta. cbn [buf]. rewrite Hr', Hd. done.
Qed.

End Runs.

Section Ops.
Context `{hid_ll_driver}.

#[local] Arguments frame : simpl never.
#[local] Arguments write_back : simpl never.
#[local] Arguments Z.to_nat : simpl never.
#[local] Arguments Z.ltb : simpl never.
#[local] Arguments Z.opp : simpl never.

Lemma run_bind {A B : Type} (p : prog A) (f : A -> prog B) w :
  run (p ≫= f) w
  = '(a, w1, evs1) ← run p w;
    '(b, w2, evs2) ← run (f a) w1;
    Some (b, w2, evs1 ++ evs2).
Proof.
  revert w. induction p as [a|X c k IH]; intros w.
  - cbn. by destruct (run (f a) w) as [[[b w2] evs2]|].
  - change (run (Do c k ≫= f) w)
      with ('(x, w, evs) ← exec_cmd c w;
            '(a, w, evs') ← run (k x ≫= f) w; Some (a, w, evs ++ evs')).
    cbn [run].
    destruct (exec_cmd c w) as [[[x w1] evs]|]; [|done]. cbn.
    rewrite IH.
    destruct (run (k x) w1) as [[[a w2] evs1]|]; [|done]. cbn.
    destruct (run (f a) w2) as [[[b w3] evs2]|]; [|done]. cbn.
    by rewrite (assoc_L (++)).
Qed.

Lemma run_op_get usage value w :
  run (op_prog (OpGet usage value)) w
  = '(r, w', evs) ← run (eizo_get_value usage value) w; Some (r.1, w', evs).
Proof.
  unfold op_prog. rewrite run_bind.
  destruct (run (eizo_get_value usage value) w) as [[[r w'] evs]|]; [|done].
  cbn. by rewrite (right_id_L [] (++)).
Qed.

(** What one operation does on a device whose mutex is free. *)
Lemma run_op_free o w d :
  drvdata w = Some d -> lock d = false ->
  exists r w' evs,
    run (op_prog o) w = Some (r, w', evs) /\
    drvdata w' = Some d /\
    lock_after evs false = false /\
    (forall c ret out, EvRaw c ret out ∈ evs -> ret < 0 -> r = - ECOMM) /\
    (forall c, c ∈ raw_calls evs -> reqtype c = HID_REQ_SET_REPORT ->
       buf c = op_frame o (counter d)) /\
    (forall c, c ∈ raw_calls evs -> reqtype c = HID_REQ_GET_REPORT ->
       exists c0,
         c0 ∈ raw_calls evs /\ reqtype c0 = HID_REQ_SET_REPORT /\
         buf c = write_back (Z.to_nat (len c0)) (raw_request (hw w) c0).1.2 (buf c0)).
Proof.
  intros Hd Hl.
  destruct (decide (39 <= free_mem w)%nat) as [Hm|Hm]; destruct o as [usage value|usage value].
  - destruct (raw_request (hw w)
      (RawCall 2 (frame usage (to_ushort (counter d)) (Some value)) 39
         HID_FEATURE_REPORT HID_REQ_SET_REPORT)) as [[ret data] h] eqn:Hr.
    eexists _, _, _. split; [by eapply run_set_sent|].
    split; [by rewrite Hd|].
    destruct (Z.ltb_spec ret 0) as [Hret|Hret]; cbn;
      (split; [done|]); (split; [|split]).
    + done.
    + intros c [->|[]%elem_of_nil]%elem_of_cons _. done.
    + intros c [->|[]%elem_of_nil]%elem_of_cons [=].
    + intros c ret' out Hin ?. inv_elem_of Hin. lia.
    + intros c [->|[]%elem_of_nil]%elem_of_cons _. done.
    + intros c [->|[]%elem_of_nil]%elem_of_cons [=].
  - rewrite run_op_get.
    destruct (raw_request (hw w)
      (RawCall 3 (frame usage (to_int (counter d)) None) 39
         HID_FEATURE_REPORT HID_REQ_SET_REPORT)) as [[ret data] h] eqn:Hr.
    destruct (Z.lt_ge_cases ret 0) as [Hret|Hret].
    + erewrite run_get_write_failed by done. cbn.
      eexists _, _, _. split; [done|]. split; [by rewrite Hd|].
      split; [done|]. split; [done|]. split.
      * intros c [->|[]%elem_of_nil]%elem_of_cons _. done.
      * intros c [->|[]%elem_of_nil]%elem_of_cons [=].
    + destruct (raw_request h
        (RawCall 3 (write_back (Z.to_nat 39) data
                      (frame usage (to_int (counter d)) None)) 39
           HID_FEATURE_REPORT HID_REQ_GET_REPORT)) as [[ret' data'] h'] eqn:Hr'.
      erewrite run_get_read by done. cbn [mbind option_bind].
      eexists _, _, _. split; [done|]. split; [by rewrite Hd|].
      destruct (Z.ltb_spec ret' 0) as [Hret'|Hret']; cbn;
        (split; [done|]); (split; [|split]).
      * done.
      * intros c [->|[->|[]%elem_of_nil]%elem_of_cons]%elem_of_cons [=]. done.
      * intros c [->|[->|[]%elem_of_nil]%elem_of_cons]%elem_of_cons [=].
        eexists. split; [left|]. split; [done|]. cbn. by rewrite Hr.
      * intros c ret'' out Hin ?. inv_elem_of Hin; lia.
      * intros c [->|[->|[]%elem_of_nil]%elem_of_cons]%elem_of_cons [=]. done.
      * intros c [->|[->|[]%elem_of_nil]%elem_of_cons]%elem_of_cons [=].
        eexists. split; [left|]. split; [done|]. cbn. by rewrite Hr.
  - eexists _, _, _. split; [by eapply run_set_nomem|].
    split; [done|]. split; [done|]. split; [|split].
    + intros c ret out Hin ?. inv_elem_of Hin.
    + intros c []%elem_of_nil.
    + intros c []%elem_of_nil.
  - rewrite run_op_get. erewrite run_get_nomem by done. cbn.
    eexists _, _, _. split; [done|].
    split; [done|]. split; [done|]. split; [|split].
    + intros c ret out Hin ?. inv_elem_of Hin.
    + intros c []%elem_of_nil.
    + intros c []%elem_of_nil.
Qed.

Lemma raw_calls_app evs evs' :
  raw_calls (evs ++ evs') = raw_calls evs ++ raw_calls evs'.
Proof. apply omap_app. Qed.

Lemma counter_bytes_op_frame o :
  counter_bytes (op_frame o 1) = [x01; x00].
Proof. by destruct o. Qed.

(** One operation, seen through bytes 5-6 of the reports it passes. *)
Lemma run_op_counter_bytes o w d :
  drvdata w = Some d -> lock d = false ->
  exists r w' evs,
    run (op_prog o) w = Some (r, w', evs) /\
    drvdata w' = Some d /\
    (forall c, c ∈ raw_calls evs -> reqtype c = HID_REQ_SET_REPORT ->
       counter_bytes (buf c) = counter_bytes (op_frame o (counter d))) /\
    (keeps_counter_bytes ->
     forall c, c ∈ raw_calls evs ->
       counter_bytes (buf c) = counter_bytes (op_frame o (counter d))).
Proof.
  intros Hd Hl.
  destruct (run_op_free o w d Hd Hl)
    as (r & w' & evs & Hrun & Hd' & _ & _ & Hset & Hget).
  exists r, w', evs. split; [done|]. split; [done|]. split.
  - intros c Hc Hty. by rewrite (Hset c Hc Hty).
  - intros Hkeep c Hc. destruct (reqtype c) eqn:Hty.
    + destruct (Hget c Hc Hty) as (c0 & Hc0 & Hty0 & ->).
      rewrite (Hkeep (hw w) c0 Hty0). by rewrite (Hset c0 Hc0 Hty0).
    + by rewrite (Hset c Hc Hty).
Qed.

Lemma run_ops_counter os w d :
  drvdata w = Some d -> lock d = false -> counter d = 1 ->
  exists rs w' evs,
    run_ops os w = Some (rs, w', evs) /\
    drvdata w' = Some d /\
    (forall c, c ∈ raw_calls evs -> reqtype c = HID_REQ_SET_REPORT ->
       counter_bytes (buf c) = [x01; x00]) /\
    (keeps_counter_bytes ->
     forall c, c ∈ raw_calls evs -> counter_bytes (buf c) = [x01; x00]).
Proof.
  intros Hd Hl Hcnt. revert w Hd.
  induction os as [|o os IH]; intros w Hd.
  - exists [], w, []. cbn. split; [done|]. split; [done|].
    split; [|intros _]; intros c Hc; by apply elem_of_nil in Hc.
  - destruct (run_op_counter_bytes o w d Hd Hl)
      as (r & w1 & evs1 & Hrun & Hd1 & Hset1 & Hall1).
    destruct (IH w1 Hd1) as (rs & w2 & evs2 & Hruns & Hd2 & Hset2 & Hall2).
    exists (r :: rs), w2, (evs1 ++ evs2).
    cbn [run_ops]. rewrite Hrun. cbn. rewrite Hruns. cbn.
    split; [done|]. split; [done|].
    rewrite Hcnt, counter_bytes_op_frame in Hset1, Hall1.
    split; [|intros Hkeep]; intros c; rewrite raw_calls_app, elem_of_app;
      intros [Hc|Hc]; auto.
Qed.

End Ops.

(** ** The frame *)

Section Frame.
Context `{eizo_h}.

Lemma to_usage_cases attr_name :
  attr_name ∈ usage_names -> is_int (to_usage attr_name).
Proof.
  intros _. unfold to_usage.
  repeat case_match; try apply to_int_is_int. unfold is_int. lia.
Qed.

(** C1. For each of the four usage codes and every [int] value, the frame
    built by [eizo_set_value] (usage in bytes 1-4, value in bytes 7-10,
    little-endian), read back the way [eizo_get_value] reads its value,
    gives the usage and the value again. *)
Theorem frame_roundtrip attr_name counter value :
  attr_name ∈ usage_names ->
  is_int value ->
  let usage := to_usage attr_name in
  let report := frame usage counter (Some value) in
  get_le32 report 1 = usage /\ get_le32 report 7 = value.
Proof.
  intros Hname Hvalue usage report. subst report. split.
  - rewrite get_le32_frame_usage. apply to_int_id. by apply to_usage_cases.
  - rewrite get_le32_frame_value. by apply to_int_id.
Qed.

End Frame.

Lemma frame_roundtrip_witness :
  let report := frame (@to_usage sample_eizo_h "brightness") 1 (Some 150) in
  get_le32 report 1 = 0x00520001 /\ get_le32 report 7 = 150.
Proof.
  apply (@frame_roundtrip sample_eizo_h "brightness" 1 150).
  - unfold usage_names. left.
  - unfold is_int. lia.
Defined.

(** ** Set and get *)

Section Engine.
Context `{hid_ll_driver}.

(** C2. A set that succeeds hands the transport exactly one report, on
    identifier 2: 39 bytes laid out as byte 0 zero, the usage in bytes 1-4,
    the session counter in bytes 5-6, the value in bytes 7-10 (all
    little-endian) and zeros in bytes 11-38.  With the counter at 1 and the
    value 150, bytes 5-10 are 01 00 96 00 00 00. *)
Theorem set_sends_one_frame usage value w w' evs :
  run (eizo_set_value usage value) w = Some (0, w', evs) ->
  exists d,
    drvdata w = Some d /\
    let report := frame_layout usage (to_ushort (counter d)) value in
    length report = 39%nat /\
    raw_calls evs
    = [RawCall 2 report 39 HID_FEATURE_REPORT HID_REQ_SET_REPORT] /\
    (counter d = 1 -> value = 150 ->
     take 6 (drop 5 report) = [x01; x00; x96; x00; x00; x00]).
Proof.
  intros Hrun. apply run_set_inv in Hrun.
  destruct Hrun as [(_ & Hr & _)|[(d & _ & _ & Hr & _)|Hrun]];
    [discriminate Hr..|].
  destruct Hrun as (d & ret & data & h & Hd & _ & _ & _ & Hr & _ & ->).
  exists d. split; [done|]. cbn zeta.
  rewrite <- frame_layout_set. split; [apply length_frame|]. split.
  - by destruct (ret <? 0).
  - intros -> ->. reflexivity.
Qed.

(** C8. Without driver data both operations return -ENODATA at once: the
    only thing they do is log the error; no buffer is allocated and the
    transport is not called. *)
Theorem no_session_no_exchange usage value w :
  drvdata w = None ->
  run (eizo_set_value usage value) w
  = Some (- ENODATA, w, [EvErr "failed to get eizo_data\n"]) /\
  run (eizo_get_value usage value) w
  = Some ((- ENODATA, value), w, [EvErr "failed to get eizo_data\n"]).
Proof.
  intros Hd. split.
  - by apply run_set_nodata.
  - by apply run_get_nodata.
Qed.

(** C3. A get that reaches the transport first writes, on identifier 3, the
    frame carrying the usage and zero value bytes.  If that write fails it is
    the only exchange and the result is -ECOMM; otherwise exactly one more
    exchange follows, a read on identifier 3 into the same buffer. *)
Theorem get_writes_then_reads usage value w d :
  drvdata w = Some d -> lock d = false -> (39 <= free_mem w)%nat ->
  exists r w' evs ret out,
    run (eizo_get_value usage value) w = Some (r, w', evs) /\
    let c := RawCall 3 (frame_layout usage (to_int (counter d)) 0) 39
                     HID_FEATURE_REPORT HID_REQ_SET_REPORT in
    let c' := RawCall 3 out 39 HID_FEATURE_REPORT HID_REQ_GET_REPORT in
    EvRaw c ret out ∈ evs /\
    if ret <? 0 then raw_calls evs = [c] /\ r = (- ECOMM, value)
    else raw_calls evs = [c; c'].
Proof.
  intros Hd Hl Hm. rewrite <- frame_layout_get.
  destruct (raw_request (hw w)
    (RawCall 3 (frame usage (to_int (counter d)) None) 39
       HID_FEATURE_REPORT HID_REQ_SET_REPORT)) as [[ret data] h] eqn:Hr.
  destruct (Z.ltb_spec ret 0) as [Hret|Hret].
  - eexists _, _, _, ret, _. split; [by eapply run_get_write_failed|].
    cbn zeta. apply Z.ltb_lt in Hret as ->. split; [do 2 right; left|done].
  - destruct (raw_request h
      (RawCall 3 (write_back (Z.to_nat 39) data
                    (frame usage (to_int (counter d)) None)) 39
         HID_FEATURE_REPORT HID_REQ_GET_REPORT)) as [[ret' data'] h'] eqn:Hr'.
    eexists _, _, _, ret, _. split; [by eapply run_get_read|].
    cbn zeta. apply Z.ltb_ge in Hret as ->. split; [do 2 right; left|].
    by destruct (ret' <? 0).
Qed.

(** C4. Attaching the device sets the session counter to 1.  After any
    sequence of set and get operations the counter is still 1, every frame
    written to the transport carries 01 00 in bytes 5-6, and so does the
    buffer of every read when the transport leaves those two bytes of a
    written report alone. *)
Theorem counter_is_always_one env w0 w1 os :
  eizo_hid_driver_probe env w0 = (0, w1) ->
  drvdata w1 = Some (EizoData false 1) /\
  exists rs w2 evs,
    run_ops os w1 = Some (rs, w2, evs) /\
    drvdata w2 = Some (EizoData false 1) /\
    (forall c, c ∈ raw_calls evs -> reqtype c = HID_REQ_SET_REPORT ->
       counter_bytes (buf c) = [x01; x00]) /\
    (keeps_counter_bytes ->
     forall c, c ∈ raw_calls evs -> counter_bytes (buf c) = [x01; x00]).
Proof.
  intros Hprobe.
  assert (drvdata w1 = Some (EizoData false 1)) as Hd.
  { unfold eizo_hid_driver_probe in Hprobe.
    repeat case_match; simplify_eq; try done;
      match goal with Hlt : (_ <? 0) = true |- _ => apply Z.ltb_lt in Hlt; lia end. }
  split; [done|]. by apply run_ops_counter.
Qed.

(** C6. On a device whose mutex is free, set and get always return, and
    with the mutex free again: the log's lock and unlock events leave it
    released and so does the device state, whatever the transport answered.
    If a transport call of the operation failed, the operation returned
    -ECOMM.  The next operation therefore runs to its end as well. *)
Theorem lock_released_on_return o w d :
  drvdata w = Some d -> lock d = false ->
  exists r w' evs,
    run (op_prog o) w = Some (r, w', evs) /\
    (forall c ret out, EvRaw c ret out ∈ evs -> ret < 0 -> r = - ECOMM) /\
    lock_after evs false = false /\
    drvdata w' = Some d /\
    forall o', is_Some (run (op_prog o') w').
Proof.
  intros Hd Hl.
  destruct (run_op_free o w d Hd Hl)
    as (r & w' & evs & Hrun & Hd' & Hlog & Hfail & _).
  exists r, w', evs. do 4 (split; [done|]).
  intros o'.
  destruct (run_op_free o' w' d Hd' Hl) as (r' & w'' & evs' & -> & _).
  by eexists.
Qed.

End Engine.

(** ** The attribute layer *)

Section Attributes.
Context `{eizo_h, kstrtox, hid_ll_driver}.

#[local] Arguments Z.ltb : simpl never.
#[local] Arguments Z.opp : simpl never.
#[local] Arguments sprintf_d_nl : simpl never.

Lemma to_usage_unknown attr_name :
  attr_name ∉ usage_names -> to_usage attr_name = -1.
Proof.
  unfold usage_names, to_usage. intros Hname.
  destruct (String.eqb_spec attr_name "brightness") as [->|_];
    [exfalso; apply Hname; repeat constructor|].
  destruct (String.eqb_spec attr_name "power") as [->|_];
    [exfalso; apply Hname; repeat constructor|].
  destruct (String.eqb_spec attr_name "gamma") as [->|_];
    [exfalso; apply Hname; repeat constructor|].
  destruct (String.eqb_spec attr_name "profile") as [->|_];
    [exfalso; apply Hname; repeat constructor|].
  done.
Qed.

Lemma run_attr_store attr_name buf count w :
  0 <= (kstrtoint buf 10).1 -> 0 <= to_usage attr_name ->
  run (eizo_attr_store attr_name buf count) w
  = '(r, w', evs) ← run (eizo_set_value (to_usage attr_name) (kstrtoint buf 10).2) w;
    Some (if r <? 0 then - EPERM else count, w', evs).
Proof.
  intros Hres Husage. unfold eizo_attr_store.
  destruct (kstrtoint buf 10) as [res value]. cbn [fst snd] in *.
  destruct (Z.ltb_spec res 0); [lia|].
  destruct (Z.ltb_spec (to_usage attr_name) 0); [lia|].
  rewrite run_bind.
  destruct (run (eizo_set_value (to_usage attr_name) value) w)
    as [[[r w'] evs]|]; [|done].
  cbn. destruct (r <? 0); cbn; by rewrite (right_id_L [] (++)).
Qed.

Lemma run_attr_show attr_name buf value w :
  0 <= to_usage attr_name ->
  run (eizo_attr_show attr_name buf value) w
  = '(r, w', evs) ← run (eizo_get_value (to_usage attr_name) value) w;
    Some (if r.1 <? 0 then (- ENODATA, buf)
          else (Z.of_nat (String.length (sprintf_d_nl r.2)), sprintf_d_nl r.2),
          w', evs).
Proof.
  intros Husage. unfold eizo_attr_show.
  destruct (Z.ltb_spec (to_usage attr_name) 0); [lia|].
  rewrite run_bind.
  destruct (run (eizo_get_value (to_usage attr_name) value) w)
    as [[[[r v] w'] evs]|]; [|done].
  cbn. destruct (r <? 0); cbn; by rewrite (right_id_L [] (++)).
Qed.

(** The digits written for a value read back as that value. *)
Lemma decimal_parses value :
  option_map Z.of_int
    (NilZero.int_of_string (NilZero.string_of_int (Z.to_int value)))
  = Some value.
Proof.
  rewrite NilZero.isi.
  - cbn. by rewrite DecimalZ.of_to.
  - destruct value; cbn; try done.
    intros [= Hnil]. by apply DecimalPos.Unsigned.to_uint_nonnil in Hnil.
  - destruct value; cbn; try done.
    intros [= Hnil]. by apply DecimalPos.Unsigned.to_uint_nonnil in Hnil.
Qed.

(** C5. For a name that is none of the four settings, the write handler and
    the read handler are nothing but the return of -EINVAL: run in any
    world they change nothing and log nothing, so the protocol engine is
    not entered and the transport is not called. *)
Theorem unknown_name_rejected attr_name buf count value w :
  attr_name ∉ usage_names ->
  to_usage attr_name = -1 /\
  eizo_attr_store attr_name buf count = Ret (- EINVAL) /\
  eizo_attr_show attr_name buf value = Ret (- EINVAL, buf) /\
  run (eizo_attr_store attr_name buf count) w = Some (- EINVAL, w, []) /\
  run (eizo_attr_show attr_name buf value) w = Some ((- EINVAL, buf), w, []).
Proof.
  intros Hname. apply to_usage_unknown in Hname as Husage.
  assert (eizo_attr_store attr_name buf count = Ret (- EINVAL)) as Hstore.
  { unfold eizo_attr_store. rewrite Husage.
    destruct (kstrtoint buf 10) as [res v]. by destruct (res <? 0). }
  assert (eizo_attr_show attr_name buf value = Ret (- EINVAL, buf)) as Hshow.
  { unfold eizo_attr_show. by rewrite Husage. }
  rewrite Hstore, Hshow. done.
Qed.

(** C9. A write whose text [kstrtoint] rejects is nothing but the return of
    -EINVAL.  A write whose text parses, for a known name, and whose set
    returns 0 returns [count].  A read that does not fail returns the length
    of a page made of the decimal digits of the value decoded by the get,
    followed by a newline. *)
Theorem attr_store_show_results attr_name buf count value w :
  ((kstrtoint buf 10).1 < 0 ->
   eizo_attr_store attr_name buf count = Ret (- EINVAL)) /\
  (forall w' evs,
     0 <= (kstrtoint buf 10).1 -> 0 <= to_usage attr_name ->
     run (eizo_set_value (to_usage attr_name) (kstrtoint buf 10).2) w
     = Some (0, w', evs) ->
     run (eizo_attr_store attr_name buf count) w = Some (count, w', evs)) /\
  (forall ret page w' evs,
     run (eizo_attr_show attr_name buf value) w = Some ((ret, page), w', evs) ->
     0 <= ret ->
     exists v digits,
       run (eizo_get_value (to_usage attr_name) value) w = Some ((0, v), w', evs) /\
       page = digits +:+ String "010"%char EmptyString /\
       option_map Z.of_int (NilZero.int_of_string digits) = Some v /\
       ret = Z.of_nat (String.length page)).
Proof.
  split; [|split].
  - intros Hres. unfold eizo_attr_store.
    destruct (kstrtoint buf 10) as [res v]. cbn [fst] in Hres.
    by destruct (Z.ltb_spec res 0); [|lia].
  - intros w' evs Hres Husage Hset.
    rewrite run_attr_store, Hset by done. done.
  - intros ret page w' evs Hshow Hret.
    destruct (Z.lt_ge_cases (to_usage attr_name) 0) as [Husage|Husage].
    { unfold eizo_attr_show in Hshow.
      apply Z.ltb_lt in Husage. rewrite Husage in Hshow.
      cbn in Hshow. simplify_eq. unfold EINVAL in Hret. lia. }
    rewrite run_attr_show in Hshow by done.
    destruct (run (eizo_get_value (to_usage attr_name) value) w)
      as [[[[r v] w1] evs1]|] eqn:Hget; [|done].
    cbn in Hshow. destruct (Z.ltb_spec r 0) as [Hr|Hr].
    { simplify_eq. unfold ENODATA in Hret. lia. }
    simplify_eq. exists v, (NilZero.string_of_int (Z.to_int v)).
    split; [|by rewrite decimal_parses].
    apply run_get_inv in Hget.
    destruct Hget as [(_ & ? & _)|[(? & _ & _ & ? & _)|Hget]].
    { simplify_eq. unfold ENODATA in Hr. lia. }
    { simplify_eq. unfold ENOMEM in Hr. lia. }
    destruct Hget as (d & ret & data & h & Hd & Hl & Hm & Hraw & Hget).
    destruct Hget as [(_ & ? & _)|(ret' & data' & h' & _ & _ & Hres & _)].
    { simplify_eq. unfold ECOMM in Hr. lia. }
    cbn zeta in Hres. destruct (ret' <? 0); simplify_eq; [|done].
    unfold ECOMM in Hr. lia.
Qed.

(** C10. Whatever made the set fail (no driver data, no memory, a failed
    transport call), the write handler returns -EPERM; whatever made the get
    fail, the read handler returns -ENODATA and leaves the page alone.  On
    every failure the get leaves the caller's [int] as it was. *)
Theorem attr_layer_collapses_errors attr_name buf count value w :
  (forall r w' evs,
     0 <= (kstrtoint buf 10).1 -> 0 <= to_usage attr_name ->
     run (eizo_set_value (to_usage attr_name) (kstrtoint buf 10).2) w
     = Some (r, w', evs) ->
     r <> 0 ->
     r ∈ [- ENODATA; - ENOMEM; - ECOMM] /\
     run (eizo_attr_store attr_name buf count) w = Some (- EPERM, w', evs)) /\
  (forall r v w' evs,
     0 <= to_usage attr_name ->
     run (eizo_get_value (to_usage attr_name) value) w = Some ((r, v), w', evs) ->
     r <> 0 ->
     r ∈ [- ENODATA; - ENOMEM; - ECOMM] /\
     run (eizo_attr_show attr_name buf value) w
     = Some ((- ENODATA, buf), w', evs)) /\
  (forall usage r v w' evs,
     run (eizo_get_value usage value) w = Some ((r, v), w', evs) ->
     (r = 0 \/ v = value)).
Proof.
  assert (forall usage r v w' evs,
    run (eizo_get_value usage value) w = Some ((r, v), w', evs) ->
    r = 0 \/ (r ∈ [- ENODATA; - ENOMEM; - ECOMM] /\ v = value)) as Hget.
  { intros usage r v w' evs Hrun. apply run_get_inv in Hrun.
    destruct Hrun as [(_ & ? & _)|[(? & _ & _ & ? & _)|Hrun]].
    { simplify_eq. right. split; [|done]. left. }
    { simplify_eq. right. split; [|done]. right; left. }
    destruct Hrun as (d & ret & data & h & _ & _ & _ & _ & Hrun).
    destruct Hrun as [(_ & ? & _)|(ret' & data' & h' & _ & _ & Hres & _)].
    { simplify_eq. right. split; [|done]. do 2 right; left. }
    cbn zeta in Hres. destruct (ret' <? 0); simplify_eq; [|by left].
    right. split; [|done]. do 2 right; left. }
  split; [|split].
  - intros r w' evs Hres Husage Hset Hr.
    rewrite run_attr_store, Hset by done. cbn.
    apply run_set_inv in Hset.
    destruct Hset as [(_ & -> & _)|[(? & _ & _ & -> & _)|Hset]].
    { split; [left|done]. }
    { split; [right; left|done]. }
    destruct Hset as (d & ret & data & h & _ & _ & _ & _ & -> & _).
    destruct (ret <? 0); [|done]. split; [do 2 right; left|done].
  - intros r v w' evs Husage Hrun Hr.
    rewrite run_attr_show, Hrun by done. cbn.
    destruct (Hget _ _ _ _ _ Hrun) as [?|[Hin ->]]; [done|].
    split; [done|].
    inv_elem_of Hin; done.
  - intros usage r v w' evs Hrun.
    destruct (Hget _ _ _ _ _ Hrun) as [?|[_ ?]]; auto.
Qed.

End Attributes.

(** ** Threads sharing the device *)

Section Threads.
Context `{hid_ll_driver}.

#[local] Arguments write_back : simpl never.
#[local] Arguments Z.to_nat : simpl never.
#[local] Arguments Z.ltb : simpl never.
#[local] Arguments replicate : simpl never.
#[local] Arguments frame : simpl never.

Lemma exec_cmd_post {X : Type} (c : cmd X) w x w' evs :
  exec_cmd c w = Some (x, w', evs) -> cmd_post c x.
Proof.
  destruct c; cbn; try done.
  - case_decide; intros; simplify_eq; auto.
  - destruct (raw_request (hw w) c) as [[ret data] h].
    intros; simplify_eq. by exists data.
Qed.

(** What a kernel call does to the mutex and to the log. *)
Lemma exec_cmd_events {X : Type} (c : cmd X) w x w' evs :
  exec_cmd c w = Some (x, w', evs) ->
  match kind c with
  | KLock => evs = [EvLock] /\ ~ lock_held w /\ lock_held w'
  | KUnlock => evs = [EvUnlock]
  | KRaw rc => (exists ret out, evs = [EvRaw rc ret out]) /\ drvdata w' = drvdata w
  | KOther => drvdata w' = drvdata w /\ Forall quiet_event evs
  end.
Proof.
  destruct c; cbn.
  - intros; simplify_eq. by split.
  - case_decide; intros; simplify_eq; split; try done; by repeat constructor.
  - intros; simplify_eq. split; [done|]. by repeat constructor.
  - unfold lock_held, with_lock.
    destruct (drvdata w) as [d|] eqn:Hd; [|done]. cbn.
    destruct (lock d) eqn:Hl; [done|]. intros; simplify_eq.
    split; [done|]. split.
    + intros (d' & ? & ?). simplify_eq. congruence.
    + by eexists.
  - unfold with_lock.
    destruct (drvdata w) as [d|] eqn:Hd; [|done]. cbn.
    destruct (lock d) eqn:Hl; [|done]. by intros; simplify_eq.
  - destruct (drvdata w) as [d|] eqn:Hd; [|done]. cbn.
    intros; simplify_eq. by split.
  - destruct (raw_request (hw w) c) as [[ret data] h].
    intros; simplify_eq. split; [by eexists _, _|done].
  - intros; simplify_eq. split; [done|]. by repeat constructor.
  - intros; simplify_eq. split; [done|]. by repeat constructor.
Qed.

(** *** Extending a log *)

Lemma raw_owners_app lg lg' :
  raw_owners (lg ++ lg') = raw_owners lg ++ raw_owners lg'.
Proof. apply omap_app. Qed.

Lemma raw_owners_quiet i evs :
  Forall quiet_event evs -> raw_owners (pair i <$> evs) = [].
Proof.
  induction 1 as [|e evs He _ IH]; [done|].
  unfold raw_owners in *. cbn. rewrite IH. by destruct e.
Qed.

Lemma holder_from_quiet h i evs :
  Forall quiet_event evs -> holder_from h (pair i <$> evs) = h.
Proof.
  induction 1 as [|e evs He _ IH]; [done|].
  unfold holder_from in *. cbn. by destruct e.
Qed.

Lemma holder_app lg lg' :
  holder (lg ++ lg') = holder_from (holder lg) lg'.
Proof. apply foldl_app. Qed.

Lemma under_lock_app h lg lg' :
  under_lock h (lg ++ lg') <-> under_lock h lg /\ under_lock (holder_from h lg) lg'.
Proof.
  revert h. induction lg as [|[i e] lg IH]; intros h; cbn.
  - tauto.
  - destruct e; cbn; rewrite IH; tauto.
Qed.

Lemma under_lock_quiet h i evs :
  Forall quiet_event evs -> under_lock h (pair i <$> evs).
Proof.
  induction 1 as [|e evs He _ IH]; [done|]. cbn. by destruct e.
Qed.

Lemma elem_of_raw_owners i lg :
  i ∈ raw_owners lg <-> exists c ret out, (i, EvRaw c ret out) ∈ lg.
Proof.
  unfold raw_owners. rewrite list_elem_of_omap. split.
  - intros ([j e] & Hin & He). cbn in He. destruct e; simplify_eq. eauto.
  - intros (c & ret & out & Hin). by exists (i, EvRaw c ret out).
Qed.

(** *** Serialized logs *)

Lemma block_tail (l : list nat) n i l1 l2 b :
  l ++ replicate n i = l1 ++ i :: l2 -> i ∉ l -> b ∈ l2 -> b = i.
Proof.
  revert l1. induction l as [|a l IH]; intros l1 Heq Hi Hb.
  - cbn in Heq. assert (b ∈ replicate n i) as Hin.
    { rewrite Heq. apply elem_of_app. right. by right. }
    by apply elem_of_replicate in Hin as [-> _].
  - destruct l1 as [|a1 l1]; cbn in Heq; simplify_eq.
    + exfalso. apply Hi. left.
    + eapply IH; [done| |done]. intros Hin. apply Hi. by right.
Qed.

Lemma serialized_snoc l n i :
  serialized (l ++ replicate n i) -> i ∉ l ->
  serialized (l ++ replicate (S n) i).
Proof.
  intros Hser Hi l1 l2 l3 a b Heq Hb.
  rewrite replicate_S_end in Heq.
  destruct l3 as [|z l3 _] using rev_ind.
  - replace (l1 ++ a :: l2 ++ [a]) with ((l1 ++ a :: l2) ++ [a]) in Heq
      by (by repeat (rewrite <- app_assoc || rewrite <- app_comm_cons)).
    rewrite (assoc_L (++)) in Heq.
    apply app_inj_tail in Heq as [Heq <-].
    by eapply block_tail.
  - replace (l1 ++ a :: l2 ++ a :: l3 ++ [z])
      with ((l1 ++ a :: l2 ++ a :: l3) ++ [z]) in Heq
      by (by repeat (rewrite <- app_assoc || rewrite <- app_comm_cons)).
    rewrite (assoc_L (++)) in Heq.
    apply app_inj_tail in Heq as [Heq _].
    by eapply Hser.
Qed.

(** *** The invariant *)

Lemma serialized_nil : serialized [].
Proof. intros l1 l2 l3 i j Heq. by destruct l1. Qed.

Lemma op_prog_before o : before_cs (op_call o) (op_prog o).
Proof.
  destruct o as [usage value|usage value]; cbn.
  - intros [[]|] _; cbn; [|done].
    intros report [-> | ->]; cbn; [done|].
    intros _ counter _. split.
    { unfold op_call. cbn. split; [done|]. split; [done|].
      split; [done|]. split; [done|]. intros _. by exists counter. }
    intros [ret report] _. cbn. intros _ _.
    destruct (ret <? 0); cbn; intros; done.
  - intros [[]|] _; cbn; [|done].
    intros report [-> | ->]; cbn; [done|].
    intros _ counter _. split.
    { unfold op_call. cbn. split; [done|]. split; [done|].
      split; [done|]. split; [done|]. intros _. by exists counter. }
    intros [ret report] (data & Hdata). cbn in Hdata. cbn. intros _ _.
    destruct (ret <? 0); cbn; [intros; done|]. split.
    { unfold op_call. cbn. split; [done|]. split; [|done].
      rewrite Hdata. change (Z.to_nat 39) with 39%nat.
      by rewrite length_write_back. }
    intros [ret' report'] _. cbn. intros _ _.
    destruct (ret' <? 0); cbn; intros; done.
Qed.

Lemma inv_init os w :
  inv os (replicate (length os) Before) (Config (op_thread <$> os) w []).
Proof.
  constructor; cbn [pool shared log].
  - by rewrite length_replicate, length_fmap.
  - intros i ph t [-> _]%lookup_replicate Ht.
    apply list_lookup_fmap_Some in Ht as (o & -> & Ho).
    exists o. split; [done|]. apply op_prog_before.
  - intros i _ Hi. by apply elem_of_nil in Hi.
  - by intros i [? _]%lookup_replicate.
  - by intros i j [? _]%lookup_replicate.
  - apply serialized_nil.
  - done.
  - intros i c ret out Hin. by apply elem_of_nil in Hin.
Qed.

(** A step that touches neither the mutex nor the transport. *)
Lemma inv_quiet os phs ts w lg i ph t' w' evs :
  inv os phs (Config ts w lg) ->
  phs !! i = Some ph ->
  (exists o, os !! i = Some o /\ thread_in (op_call o) ph t') ->
  drvdata w' = drvdata w ->
  Forall quiet_event evs ->
  inv os phs (Config (<[i := t']> ts) w' (lg ++ (pair i <$> evs))).
Proof.
  intros [Hlen Hth Hbef Hins Hexcl Hser Hheld Hcalls] Hph Ht' Hdrv Hq.
  cbn [pool shared log] in *. constructor; cbn.
  - by rewrite length_insert.
  - intros j phj t Hphj Ht.
    apply list_lookup_insert_Some in Ht as [(<- & <- & _)|(Hne & Ht)].
    + by simplify_eq.
    + eauto.
  - intros j Hj. rewrite raw_owners_app, raw_owners_quiet, app_nil_r by done. auto.
  - intros j Hj. destruct (Hins j Hj) as (Hlk & Hh & Hblock).
    split; [unfold lock_held; by rewrite Hdrv|].
    split; [by rewrite holder_app, holder_from_quiet|].
    by rewrite raw_owners_app, raw_owners_quiet, app_nil_r.
  - done.
  - by rewrite raw_owners_app, raw_owners_quiet, app_nil_r.
  - apply under_lock_app. split; [done|]. by apply under_lock_quiet.
  - intros j c ret out [Hin|Hin]%elem_of_app; [eauto|].
    apply list_elem_of_fmap in Hin as (e & ? & He). simplify_eq.
    rewrite Forall_forall in Hq. by apply Hq in He.
Qed.

(** Taking the mutex. *)
Lemma inv_lock os phs ts w lg i t' w' :
  inv os phs (Config ts w lg) ->
  phs !! i = Some Before ->
  (exists o, os !! i = Some o /\ thread_in (op_call o) Inside t') ->
  ~ lock_held w -> lock_held w' ->
  inv os (<[i := Inside]> phs) (Config (<[i := t']> ts) w' (lg ++ [(i, EvLock)])).
Proof.
  intros [Hlen Hth Hbef Hins Hexcl Hser Hheld Hcalls] Hph Ht' Hfree Hlk.
  cbn [pool shared log] in *.
  assert (forall j, <[i := Inside]> phs !! j = Some Inside -> j = i) as Honly.
  { intros j [(<- & _)|(Hne & Hj)]%list_lookup_insert_Some; [done|].
    destruct (Hins j Hj) as (? & _). done. }
  assert (raw_owners (lg ++ [(i, EvLock)]) = raw_owners lg) as Hown.
  { by rewrite raw_owners_app, app_nil_r. }
  constructor; cbn [pool shared log].
  - by rewrite !length_insert.
  - intros j phj t Hphj Ht.
    apply list_lookup_insert_Some in Ht as [(<- & <- & Hlt)|(Hne & Ht)].
    + rewrite list_lookup_insert_eq in Hphj by lia. by simplify_eq.
    + rewrite list_lookup_insert_ne in Hphj by done. eauto.
  - intros j [(_ & ? & _)|(Hne & Hj)]%list_lookup_insert_Some; [done|].
    rewrite Hown. auto.
  - intros j Hj. apply Honly in Hj as ->.
    split; [done|]. split; [by rewrite holder_app|].
    exists (raw_owners lg), 0%nat. rewrite Hown, app_nil_r. auto.
  - intros j1 j2 Hj1 Hj2. apply Honly in Hj1, Hj2. congruence.
  - by rewrite Hown.
  - apply under_lock_app. by split.
  - intros j c ret out [Hin|Hin]%elem_of_app; [eauto|].
    by apply list_elem_of_singleton in Hin.
Qed.

(** Releasing the mutex. *)
Lemma inv_unlock os phs ts w lg i t' w' :
  inv os phs (Config ts w lg) ->
  phs !! i = Some Inside ->
  (exists o, os !! i = Some o /\ thread_in (op_call o) After t') ->
  inv os (<[i := After]> phs) (Config (<[i := t']> ts) w' (lg ++ [(i, EvUnlock)])).
Proof.
  intros [Hlen Hth Hbef Hins Hexcl Hser Hheld Hcalls] Hph Ht'.
  cbn [pool shared log] in *.
  assert (forall j, <[i := After]> phs !! j = Some Inside -> False) as Hnone.
  { intros j [(_ & ? & _)|(Hne & Hj)]%list_lookup_insert_Some; [done|].
    by specialize (Hexcl i j Hph Hj). }
  assert (raw_owners (lg ++ [(i, EvUnlock)]) = raw_owners lg) as Hown.
  { by rewrite raw_owners_app, app_nil_r. }
  constructor; cbn [pool shared log].
  - by rewrite !length_insert.
  - intros j phj t Hphj Ht.
    apply list_lookup_insert_Some in Ht as [(<- & <- & Hlt)|(Hne & Ht)].
    + rewrite list_lookup_insert_eq in Hphj by lia. by simplify_eq.
    + rewrite list_lookup_insert_ne in Hphj by done. eauto.
  - intros j [(_ & ? & _)|(Hne & Hj)]%list_lookup_insert_Some; [done|].
    rewrite Hown. auto.
  - intros j Hj. by apply Hnone in Hj.
  - intros j1 j2 Hj1. by apply Hnone in Hj1.
  - by rewrite Hown.
  - apply under_lock_app. by split.
  - intros j c ret out [Hin|Hin]%elem_of_app; [eauto|].
    by apply list_elem_of_singleton in Hin.
Qed.

(** A transport call. *)
Lemma inv_raw os phs ts w lg i o t' w' c ret out :
  inv os phs (Config ts w lg) ->
  phs !! i = Some Inside ->
  os !! i = Some o -> thread_in (op_call o) Inside t' -> op_call o c ->
  drvdata w' = drvdata w ->
  inv os phs (Config (<[i := t']> ts) w' (lg ++ [(i, EvRaw c ret out)])).
Proof.
  intros [Hlen Hth Hbef Hins Hexcl Hser Hheld Hcalls] Hph Ho Ht' Hc Hdrv.
  cbn [pool shared log] in *.
  destruct (Hins i Hph) as (Hlk & Hh & l & n & Hblock & Hl).
  assert (raw_owners (lg ++ [(i, EvRaw c ret out)]) = l ++ replicate (S n) i)
    as Hown.
  { rewrite raw_owners_app, Hblock, replicate_S_end.
    by rewrite (assoc_L (++)). }
  constructor; cbn [pool shared log].
  - by rewrite length_insert.
  - intros j phj t Hphj Ht.
    apply list_lookup_insert_Some in Ht as [(<- & <- & _)|(Hne & Ht)].
    + simplify_eq. eauto.
    + eauto.
  - intros j Hj. rewrite raw_owners_app. intros [Hin|Hin]%elem_of_app.
    + by apply (Hbef j).
    + apply list_elem_of_singleton in Hin. cbn in Hin. congruence.
  - intros j Hj. rewrite <- (Hexcl i j Hph Hj).
    split; [unfold lock_held; by rewrite Hdrv|].
    split; [by rewrite holder_app|]. eauto.
  - done.
  - rewrite Hown. apply serialized_snoc; [|done]. by rewrite <- Hblock.
  - apply under_lock_app. by split.
  - intros j c' ret' out' [Hin|Hin]%elem_of_app; [eauto|].
    apply list_elem_of_singleton in Hin. simplify_eq. eauto.
Qed.

Lemma inv_step os phs cfg i cfg' :
  inv os phs cfg -> thread_step i cfg = Some cfg' ->
  exists phs', inv os phs' cfg'.
Proof.
  intros Hinv Hstep. destruct cfg as [ts w lg].
  unfold thread_step in Hstep. cbn [pool shared log] in Hstep.
  destruct (ts !! i) as [[A p]|] eqn:Hti; [|done]. cbn in Hstep.
  destruct p as [a|X c k]; [done|].
  destruct (exec_cmd c w) as [[[x w1] evs]|] eqn:Hexec; [|done].
  cbn in Hstep. simplify_eq.
  destruct (phs !! i) as [ph|] eqn:Hph.
  2:{ apply lookup_ge_None in Hph. apply lookup_lt_Some in Hti.
      pose proof (inv_len _ _ _ Hinv) as Hlen. cbn in Hlen. lia. }
  destruct (inv_thread _ _ _ Hinv i ph _ Hph Hti) as (o & Ho & Hin).
  pose proof (exec_cmd_post _ _ _ _ _ Hexec) as Hpost.
  pose proof (exec_cmd_events _ _ _ _ _ Hexec) as Hev.
  destruct ph; cbn in Hin.
  - (* before the critical section *)
    destruct (kind c) eqn:Hk; try done.
    + destruct Hev as (-> & Hfree & Hheld).
      exists (<[i := Inside]> phs). eapply inv_lock; eauto.
      exists o. split; [done|]. apply Hin.
    + destruct Hev as (Hdrv & Hq).
      exists phs. eapply inv_quiet; eauto.
      exists o. split; [done|]. by apply Hin.
  - (* inside *)
    destruct (kind c) eqn:Hk; try done.
    + subst evs. exists (<[i := After]> phs). eapply inv_unlock; eauto.
      exists o. split; [done|]. apply Hin.
    + destruct Hin as (Hc & Hin). destruct Hev as ((ret & out & ->) & Hdrv).
      exists phs. eapply inv_raw; eauto. by apply Hin.
    + destruct Hev as (Hdrv & Hq).
      exists phs. eapply inv_quiet; eauto.
      exists o. split; [done|]. by apply Hin.
  - (* after *)
    destruct Hin as (Hk & Hin). rewrite Hk in Hev. destruct Hev as (Hdrv & Hq).
    exists phs. eapply inv_quiet; eauto.
    exists o. split; [done|]. by apply Hin.
Qed.

Lemma inv_interleave os sched phs cfg cfg' :
  inv os phs cfg -> interleave sched cfg = Some cfg' ->
  exists phs', inv os phs' cfg'.
Proof.
  revert phs cfg. induction sched as [|i sched IH]; intros phs cfg Hinv Hrun.
  - cbn in Hrun. simplify_eq. eauto.
  - cbn in Hrun. destruct (thread_step i cfg) as [cfg1|] eqn:Hstep; [|done].
    cbn in Hrun. destruct (inv_step _ _ _ _ _ Hinv Hstep) as (phs1 & Hinv1).
    eauto.
Qed.

(** C7. Threads running set and get operations on one device, interleaved
    in any order: every transport call in the log is made by the thread that
    holds the mutex at that point, the calls of one operation are never
    separated by a call of another, and each call is a 39-byte feature report
    on the operation's identifier which, for a write, is the frame that
    operation built. *)
Theorem transport_calls_serialized os w sched cfg :
  interleave sched (Config (op_thread <$> os) w []) = Some cfg ->
  raw_under_lock (log cfg) /\
  serialized (raw_owners (log cfg)) /\
  forall i c ret out,
    (i, EvRaw c ret out) ∈ log cfg ->
    exists o, os !! i = Some o /\ op_call o c.
Proof.
  intros Hrun.
  destruct (inv_interleave os sched _ _ _ (inv_init os w) Hrun) as (phs & Hinv).
  split; [apply (inv_held _ _ _ Hinv)|].
  split; [apply (inv_ser _ _ _ Hinv)|].
  apply (inv_calls _ _ _ Hinv).
Qed.

End Threads.

(** ** The echo device *)

Example kstrtoint10_examples :
  kstrtoint10 "150" = (0, 150) /\
  kstrtoint10 ("-7" +:+ String "010"%char EmptyString) = (0, -7) /\
  kstrtoint10 "+2147483647" = (0, 2147483647) /\
  kstrtoint10 "2147483648" = (- ERANGE, 0) /\
  kstrtoint10 "15o" = (- EINVAL, 0) /\
  kstrtoint10 "" = (- EINVAL, 0).
Proof. repeat split. Qed.

Example sprintf_d_nl_examples :
  sprintf_d_nl 150 = "150" +:+ String "010"%char EmptyString /\
  sprintf_d_nl 0 = "0" +:+ String "010"%char EmptyString /\
  sprintf_d_nl (-7) = "-7" +:+ String "010"%char EmptyString.
Proof. repeat split. Qed.

Example frame_brightness_150 :
  frame 0x00520001 1 (Some 150)
  = [x00; x01; x00; x52; x00; x01; x00; x96; x00; x00; x00]
    ++ replicate 28 x00.
Proof. reflexivity. Qed.

Lemma echo_keeps_counter_bytes : @keeps_counter_bytes echo_driver.
Proof.
  intros st c Hty. cbn. unfold echo_request. rewrite Hty.
  destruct (hd (len c) (rets st) <? 0); cbn; by rewrite write_back_nil.
Qed.

(** On the echo device a get returns what the set before it wrote. *)
Lemma echo_set_then_get usage value value0 :
  is_int value ->
  exists w1 evs1 w2 evs2,
    run (eizo_set_value usage value) (attached_world []) = Some (0, w1, evs1) /\
    run (eizo_get_value usage value0) w1 = Some ((0, value), w2, evs2).
Proof.
  intros Hvalue.
  pose (stored_frame := frame usage 1 (Some value)).
  exists (@World echo_driver (Some (EizoData false 1)) 128
            (EchoState stored_frame [])).
  eexists. eexists. eexists. split.
  - rewrite (@run_set_sent echo_driver usage value (attached_world [])
               (EizoData false 1) 39 [] (EchoState stored_frame []));
      [reflexivity|reflexivity|reflexivity|cbn; lia|reflexivity].
  - rewrite (@run_get_read echo_driver usage value0 _ (EizoData false 1)
               39 [] (EchoState stored_frame [])
               39 stored_frame (EchoState stored_frame []));
      [|reflexivity|reflexivity|cbn;lia|reflexivity|lia|reflexivity].
    cbn [buf]. rewrite write_back_nil.
    assert (forall r, length r = 39%nat ->
              write_back (Z.to_nat 39) stored_frame r = stored_frame) as Hwb.
    { intros r Hr. unfold write_back. change (Z.to_nat 39) with 39%nat.
      rewrite take_ge by (unfold stored_frame; rewrite length_frame; lia).
      rewrite drop_ge, app_nil_r; [done|].
      unfold stored_frame. rewrite length_frame. lia. }
    rewrite Hwb by apply length_frame.
    unfold stored_frame. rewrite get_le32_frame_value, to_int_id by done.
    reflexivity.
Qed.

(** ** The theorems at work on the echo device *)

Lemma set_sends_one_frame_witness :
  exists d,
    drvdata (attached_world []) = Some d /\
    let report := frame_layout 0x00520001 (to_ushort (counter d)) 150 in
    length report = 39%nat /\
    raw_calls
      [EvAlloc 39 true; EvLock;
       EvRaw (RawCall 2 (frame 0x00520001 1 (Some 150)) 39
                HID_FEATURE_REPORT HID_REQ_SET_REPORT)
             39 (frame 0x00520001 1 (Some 150));
       EvWait; EvUnlock; EvFree 39]
    = [RawCall 2 report 39 HID_FEATURE_REPORT HID_REQ_SET_REPORT] /\
    (counter d = 1 -> 150 = 150 ->
     take 6 (drop 5 report) = [x01; x00; x96; x00; x00; x00]).
Proof.
  apply (@set_sends_one_frame echo_driver 0x00520001 150 (attached_world [])
           (@World echo_driver (Some (EizoData false 1)) 128
              (EchoState (frame 0x00520001 1 (Some 150)) []))).
  vm_compute. reflexivity.
Defined.

Lemma no_session_no_exchange_witness :
  run (eizo_set_value 0x00520001 150) detached_world
  = Some (- ENODATA, detached_world, [EvErr "failed to get eizo_data\n"]) /\
  run (eizo_get_value 0x00520001 150) detached_world
  = Some ((- ENODATA, 150), detached_world, [EvErr "failed to get eizo_data\n"]).
Proof.
  apply (@no_session_no_exchange echo_driver 0x00520001 150 detached_world).
  reflexivity.
Defined.

(** A get whose write is refused by the transport. *)
Lemma get_writes_then_reads_witness :
  exists r w' evs ret out,
    run (eizo_get_value 0x00520001 7) (attached_world [-5]) = Some (r, w', evs) /\
    let c := RawCall 3 (frame_layout 0x00520001 (to_int 1) 0) 39
                     HID_FEATURE_REPORT HID_REQ_SET_REPORT in
    let c' := RawCall 3 out 39 HID_FEATURE_REPORT HID_REQ_GET_REPORT in
    EvRaw c ret out ∈ evs /\
    if ret <? 0 then raw_calls evs = [c] /\ r = (- ECOMM, 7)
    else raw_calls evs = [c; c'].
Proof.
  apply (@get_writes_then_reads echo_driver 0x00520001 7 (attached_world [-5])
           (EizoData false 1)).
  - reflexivity.
  - reflexivity.
  - vm_compute. lia.
Defined.

Lemma counter_is_always_one_witness :
  drvdata (attached_world []) = Some (EizoData false 1) /\
  exists rs w2 evs,
    run_ops two_ops (attached_world []) = Some (rs, w2, evs) /\
    drvdata w2 = Some (EizoData false 1) /\
    forall c, c ∈ raw_calls evs -> counter_bytes (buf c) = [x01; x00].
Proof.
  destruct (@counter_is_always_one echo_driver probe_ok detached_world
              (attached_world []) two_ops)
    as (Hd & rs & w2 & evs & Hrun & Hd2 & _ & Hall).
  - reflexivity.
  - split; [exact Hd|]. exists rs, w2, evs.
    split; [exact Hrun|]. split; [exact Hd2|].
    exact (Hall echo_keeps_counter_bytes).
Defined.

Lemma lock_released_on_return_witness :
  exists r w' evs,
    run (op_prog (OpGet 0x00520001 7)) (attached_world [39; -5])
    = Some (r, w', evs) /\
    (forall c ret out, EvRaw c ret out ∈ evs -> ret < 0 -> r = - ECOMM) /\
    lock_after evs false = false /\
    drvdata w' = Some (EizoData false 1) /\
    forall o', is_Some (run (op_prog o') w').
Proof.
  apply (@lock_released_on_return echo_driver (OpGet 0x00520001 7)
           (attached_world [39; -5]) (EizoData false 1)).
  - reflexivity.
  - reflexivity.
Defined.

Lemma transport_calls_serialized_witness :
  exists cfg,
    interleave two_ops_sched
      (Config (op_thread <$> two_ops) (attached_world []) []) = Some cfg /\
    raw_owners (log cfg) = [0; 1; 1]%nat /\
    raw_under_lock (log cfg) /\
    serialized (raw_owners (log cfg)) /\
    forall i c ret out,
      (i, EvRaw c ret out) ∈ log cfg ->
      exists o, two_ops !! i = Some o /\ op_call o c.
Proof.
  eexists. split; [vm_compute; reflexivity|].
  split; [reflexivity|].
  apply (@transport_calls_serialized echo_driver two_ops (attached_world [])
           two_ops_sched).
  vm_compute. reflexivity.
Defined.

Lemma unknown_name_rejected_witness :
  @to_usage sample_eizo_h "contrast" = -1 /\
  @eizo_attr_store sample_eizo_h linux_kstrtox "contrast" "150" 4 = Ret (- EINVAL) /\
  @eizo_attr_show sample_eizo_h "contrast" "150" 0 = Ret (- EINVAL, "150") /\
  run (@eizo_attr_store sample_eizo_h linux_kstrtox "contrast" "150" 4)
      (attached_world [])
  = Some (- EINVAL, attached_world [], []) /\
  run (@eizo_attr_show sample_eizo_h "contrast" "150" 0) (attached_world [])
  = Some ((- EINVAL, "150"), attached_world [], []).
Proof.
  apply (@unknown_name_rejected sample_eizo_h linux_kstrtox echo_driver
           "contrast" "150" 4 0 (attached_world [])).
  apply (bool_decide_unpack _). vm_compute. exact I.
Defined.

(** A write of text that is no number, a write of 150 to the brightness,
    and a read of the brightness from a device that holds 150. *)
Lemma attr_store_show_results_witness :
  @eizo_attr_store sample_eizo_h linux_kstrtox "brightness" "15o" 4
  = Ret (- EINVAL) /\
  (exists w' evs,
     run (@eizo_attr_store sample_eizo_h linux_kstrtox "brightness" "150" 4)
         (attached_world [])
     = Some (4, w', evs)) /\
  (exists w' evs v digits,
     run (eizo_get_value (@to_usage sample_eizo_h "brightness") 0)
         (@World echo_driver (Some (EizoData false 1)) 128
            (EchoState (frame 0x00520001 1 (Some 150)) []))
     = Some ((0, v), w', evs) /\
     "150" +:+ String "010"%char EmptyString
     = digits +:+ String "010"%char EmptyString /\
     option_map Z.of_int (NilZero.int_of_string digits) = Some v /\
     4 = Z.of_nat (String.length ("150" +:+ String "010"%char EmptyString))).
Proof.
  split; [|split].
  - apply (@attr_store_show_results sample_eizo_h linux_kstrtox echo_driver
             "brightness" "15o" 4 0 (attached_world [])).
    vm_compute. reflexivity.
  - eexists _, _.
    apply (@attr_store_show_results sample_eizo_h linux_kstrtox echo_driver
             "brightness" "150" 4 0 (attached_world [])).
    + vm_compute. discriminate.
    + vm_compute. discriminate.
    + vm_compute. reflexivity.
  - eexists _, _.
    eapply (@attr_store_show_results sample_eizo_h linux_kstrtox echo_driver
              "brightness" "" 4 0
              (@World echo_driver (Some (EizoData false 1)) 128
                 (EchoState (frame 0x00520001 1 (Some 150)) []))).
    + vm_compute. reflexivity.
    + lia.
Defined.

(** A write and a read on a device without driver data. *)
Lemma attr_layer_collapses_errors_witness :
  (- ENODATA ∈ [- ENODATA; - ENOMEM; - ECOMM] /\
   run (@eizo_attr_store sample_eizo_h linux_kstrtox "brightness" "150" 4)
       detached_world
   = Some (- EPERM, detached_world, [EvErr "failed to get eizo_data\n"])) /\
  (- ENODATA ∈ [- ENODATA; - ENOMEM; - ECOMM] /\
   run (@eizo_attr_show sample_eizo_h "brightness" "" 7) detached_world
   = Some ((- ENODATA, ""), detached_world, [EvErr "failed to get eizo_data\n"])) /\
  (- ENODATA = 0 \/ 7 = 7).
Proof.
  split; [|split].
  - apply (@attr_layer_collapses_errors sample_eizo_h linux_kstrtox echo_driver
             "brightness" "150" 4 7 detached_world).
    + vm_compute. discriminate.
    + vm_compute. discriminate.
    + reflexivity.
    + discriminate.
  - eapply (proj1 (proj2
      (@attr_layer_collapses_errors sample_eizo_h linux_kstrtox echo_driver
         "brightness" "" 4 7 detached_world))).
    + vm_compute. discriminate.
    + reflexivity.
    + discriminate.
  - eapply (proj2 (proj2
      (@attr_layer_collapses_errors sample_eizo_h linux_kstrtox echo_driver
         "brightness" "" 4 7 detached_world)) 0x00520001).
    reflexivity.
Defined.

(** * Further properties of the driver *)

(** ** What an operation leaves behind *)

Section Neutral.
Context `{hid_ll_driver}.

#[local] Arguments frame : simpl never.
#[local] Arguments write_back : simpl never.
#[local] Arguments Z.to_nat : simpl never.
#[local] Arguments Z.ltb : simpl never.
#[local] Arguments Z.opp : simpl never.

Lemma op_call_write o counter :
  op_call o (RawCall (op_reportnum o) (op_frame o counter) 39
               HID_FEATURE_REPORT HID_REQ_SET_REPORT).
Proof.
  repeat split; cbn.
  - destruct o; apply length_frame.
  - intros _. by exists counter.
Qed.

Lemma op_call_read o report data :
  length report = 39%nat ->
  op_call o (RawCall (op_reportnum o) (write_back (Z.to_nat 39) data report) 39
               HID_FEATURE_REPORT HID_REQ_GET_REPORT).
Proof.
  intros Hlen. repeat split; cbn; [|done].
  rewrite length_write_back; [done|]. rewrite Hlen.
  change (Z.to_nat 39) with 39%nat. lia.
Qed.

(** One operation: the driver data and the memory are as before, and the
    log has the shape the code gives it. *)
Lemma run_op_shape o w r w' evs :
  run (op_prog o) w = Some (r, w', evs) ->
  drvdata w' = drvdata w /\ free_mem w' = free_mem w /\
  (length (raw_calls evs) <= op_max_calls o)%nat /\
  under_lock None (pair 0%nat <$> evs) /\
  lock_after evs false = false /\
  waits_follow evs /\
  forall c, c ∈ raw_calls evs -> op_call o c.
Proof.
  intros Hrun.
  destruct (drvdata w) as [d|] eqn:Hd.
  2:{ destruct o as [usage value|usage value].
      - cbn [op_prog] in Hrun. rewrite run_set_nodata in Hrun by done. simplify_eq.
        split_and!; cbn; try done; try lia;
          intros c Hc; by apply elem_of_nil in Hc.
      - rewrite run_op_get, run_get_nodata in Hrun by done.
        cbn [mbind option_bind] in Hrun. simplify_eq.
        split_and!; cbn; try done; try lia;
          intros c Hc; by apply elem_of_nil in Hc. }
  destruct (decide (39 <= free_mem w)%nat) as [Hm|Hm].
  2:{ destruct o as [usage value|usage value].
      - cbn [op_prog] in Hrun. erewrite run_set_nomem in Hrun by done. simplify_eq.
        split_and!; cbn; try done; try lia;
          intros c Hc; by apply elem_of_nil in Hc.
      - rewrite run_op_get in Hrun. erewrite run_get_nomem in Hrun by done.
        cbn [mbind option_bind] in Hrun. simplify_eq.
        split_and!; cbn; try done; try lia;
          intros c Hc; by apply elem_of_nil in Hc. }
  destruct (lock d) eqn:Hl.
  { destruct o as [usage value|usage value].
    - cbn [op_prog] in Hrun. by erewrite run_set_blocked in Hrun.
    - rewrite run_op_get in Hrun. by erewrite run_get_blocked in Hrun. }
  destruct o as [usage value|usage value].
  - destruct (raw_request (hw w)
      (RawCall 2 (frame usage (to_ushort (counter d)) (Some value)) 39
         HID_FEATURE_REPORT HID_REQ_SET_REPORT)) as [[ret data] h] eqn:Hr.
    cbn [op_prog] in Hrun. erewrite run_set_sent in Hrun by done. simplify_eq.
    pose proof (op_call_write (OpSet usage value) (counter d)) as Hc.
    destruct (ret <? 0); cbn; (split_and!; try done);
      intros c Hin; inv_elem_of Hin; exact Hc.
  - rewrite run_op_get in Hrun.
    destruct (raw_request (hw w)
      (RawCall 3 (frame usage (to_int (counter d)) None) 39
         HID_FEATURE_REPORT HID_REQ_SET_REPORT)) as [[ret data] h] eqn:Hr.
    pose proof (op_call_write (OpGet usage value) (counter d)) as Hc.
    destruct (Z.lt_ge_cases ret 0) as [Hret|Hret].
    + erewrite run_get_write_failed in Hrun by done.
      cbn [mbind option_bind] in Hrun. simplify_eq.
      cbn. split_and!; try done; try lia.
      intros c Hin; inv_elem_of Hin; exact Hc.
    + destruct (raw_request h
        (RawCall 3 (write_back (Z.to_nat 39) data
                      (frame usage (to_int (counter d)) None)) 39
           HID_FEATURE_REPORT HID_REQ_GET_REPORT)) as [[ret' data'] h'] eqn:Hr'.
      erewrite run_get_read in Hrun by done. cbn [mbind option_bind] in Hrun.
      simplify_eq.
      pose proof (op_call_read (OpGet usage value)
                    (frame usage (to_int (counter d)) None) data
                    (length_frame _ _ _)) as Hc'.
      destruct (ret' <? 0); cbn; (split_and!; try done; try lia);
        intros c Hin; inv_elem_of Hin; done.
Qed.

Lemma run_ops_shape os w rs w' evs :
  run_ops os w = Some (rs, w', evs) ->
  length rs = length os /\
  drvdata w' = drvdata w /\ free_mem w' = free_mem w /\
  lock_after evs false = false /\
  (length (raw_calls evs) <= sum_list (op_max_calls <$> os))%nat.
Proof.
  revert w rs evs. induction os as [|o os IH]; intros w rs evs Hrun.
  - cbn in Hrun. simplify_eq. cbn. split_and!; try done.
  - cbn [run_ops] in Hrun.
    destruct (run (op_prog o) w) as [[[r w1] evs1]|] eqn:Hop; [|done].
    cbn [mbind option_bind] in Hrun.
    destruct (run_ops os w1) as [[[rs1 w2] evs2]|] eqn:Hops; [|done].
    cbn [mbind option_bind] in Hrun. simplify_eq.
    apply run_op_shape in Hop as (Hd1 & Hm1 & Hn1 & _ & Hl1 & _).
    apply IH in Hops as (Hlen & Hd2 & Hm2 & Hl2 & Hn2).
    split_and!.
    + cbn. by rewrite Hlen.
    + congruence.
    + congruence.
    + unfold lock_after in *. by rewrite foldl_app, Hl1.
    + rewrite raw_calls_app, length_app. cbn. lia.
Qed.

(** X1. Any sequence of set and get operations that returns gives one
    result per operation, leaves the driver data (mutex and counter) and the
    free memory as they were, and makes at most one transport call per set
    and two per get. *)
Theorem operations_leave_no_trace os w rs w' evs :
  run_ops os w = Some (rs, w', evs) ->
  length rs = length os /\
  drvdata w' = drvdata w /\
  free_mem w' = free_mem w /\
  (length (raw_calls evs) <= sum_list (op_max_calls <$> os))%nat.
Proof.
  intros Hrun.
  apply run_ops_shape in Hrun as (? & ? & ? & _ & ?). done.
Qed.

(** X2. In every run of a set or get, whatever its outcome, each transport
    call is made between the lock and the unlock, is a 39-byte feature
    report on the operation's report identifier (for a write: the frame the
    operation built) and is followed at once by [hid_hw_wait]. *)
Theorem transport_calls_well_formed o w r w' evs :
  run (op_prog o) w = Some (r, w', evs) ->
  under_lock None (pair 0%nat <$> evs) /\
  waits_follow evs /\
  forall c, c ∈ raw_calls evs -> op_call o c.
Proof.
  intros Hrun.
  apply run_op_shape in Hrun as (_ & _ & _ & ? & _ & ? & ?). done.
Qed.

(** *** What a get returns *)

Lemma report_at_write_back_reply data report i :
  (i < 39)%nat -> (i < length data)%nat ->
  report_at (write_back (Z.to_nat 39) data report) i = report_at data i.
Proof.
  intros Hi Hlen. unfold report_at, write_back.
  change (Z.to_nat 39) with 39%nat.
  rewrite lookup_total_app_l by (rewrite length_take; lia).
  by rewrite lookup_total_take_lt.
Qed.

Lemma report_at_write_back_kept data report i :
  (length data <= i)%nat -> (length data <= 39)%nat ->
  report_at (write_back (Z.to_nat 39) data report) i = report_at report i.
Proof.
  intros Hi Hlen. unfold report_at, write_back.
  change (Z.to_nat 39) with 39%nat.
  rewrite take_ge by done.
  rewrite lookup_total_app_r by done.
  rewrite lookup_total_drop. f_equal. f_equal. lia.
Qed.

(** X3. A get whose two transport calls succeed returns, for a reply of at
    least 11 bytes, the little-endian [int] of bytes 7-10 of that reply and
    nothing else of it. *)
Theorem get_returns_reply_value usage value w d ret data h ret' data' h' :
  drvdata w = Some d -> lock d = false -> (39 <= free_mem w)%nat ->
  let c := RawCall 3 (frame usage (to_int (counter d)) None) 39
                   HID_FEATURE_REPORT HID_REQ_SET_REPORT in
  let out := write_back (Z.to_nat 39) data (buf c) in
  let c' := RawCall 3 out 39 HID_FEATURE_REPORT HID_REQ_GET_REPORT in
  raw_request (hw w) c = (ret, data, h) -> 0 <= ret ->
  raw_request h c' = (ret', data', h') -> 0 <= ret' ->
  (11 <= length data')%nat ->
  exists w' evs,
    run (eizo_get_value usage value) w
    = Some ((0, get_le32 data' 7), w', evs).
Proof.
  intros Hd Hl Hm c out c' Hr Hret Hr' Hret' Hlen.
  eexists _, _. erewrite run_get_read by done.
  destruct (Z.ltb_spec ret' 0); [lia|].
  unfold get_le32.
  by rewrite !report_at_write_back_reply by lia.
Qed.

(** X4. The length the transport reports is not looked at: a get whose
    calls return non-negative codes but put fewer than 8 bytes into the
    buffer succeeds all the same, with the value 0 that the request frame
    had in bytes 7-10. *)
Theorem get_short_reply_gives_zero usage value w d ret data h ret' data' h' :
  drvdata w = Some d -> lock d = false -> (39 <= free_mem w)%nat ->
  let c := RawCall 3 (frame usage (to_int (counter d)) None) 39
                   HID_FEATURE_REPORT HID_REQ_SET_REPORT in
  let out := write_back (Z.to_nat 39) data (buf c) in
  let c' := RawCall 3 out 39 HID_FEATURE_REPORT HID_REQ_GET_REPORT in
  raw_request (hw w) c = (ret, data, h) -> 0 <= ret ->
  raw_request h c' = (ret', data', h') -> 0 <= ret' ->
  (length data <= 7)%nat -> (length data' <= 7)%nat ->
  exists w' evs,
    run (eizo_get_value usage value) w = Some ((0, 0), w', evs).
Proof.
  intros Hd Hl Hm c out c' Hr Hret Hr' Hret' Hlen Hlen'.
  eexists _, _. erewrite run_get_read by done.
  destruct (Z.ltb_spec ret' 0); [lia|].
  unfold get_le32. cbn [buf].
  rewrite !(report_at_write_back_kept data') by lia.
  rewrite !(report_at_write_back_kept data) by lia.
  reflexivity.
Qed.

End Neutral.

(** ** The frame as an encoding *)

Lemma le16_combine c :
  Z.lor (Z.land (Z.shiftr c 0) 255 mod 256)
        (Z.shiftl (Z.land (Z.shiftr c 8) 255 mod 256) 8)
  = c mod 2 ^ 16.
Proof.
  change 255 with (Z.ones 8). change 256 with (2 ^ 8).
  rewrite !Z.land_ones by lia.
  rewrite <- !Z.land_ones by lia.
  Z.bitblast.
Qed.

Lemma counter_of_frame usage counter value :
  Z.lor (report_at (frame usage counter value) 5)
        (Z.shiftl (report_at (frame usage counter value) 6) 8)
  = counter mod 2 ^ 16.
Proof.
  destruct value; [rewrite frame_bytes|rewrite frame_bytes_get];
    unfold report_at; cbn [lookup_total list_lookup_total app];
    rewrite !u8_val_u8; apply le16_combine.
Qed.

Lemma to_int_inj_mod x y : to_int x = to_int y -> x mod 2 ^ 32 = y mod 2 ^ 32.
Proof.
  unfold to_int. intros Heq.
  assert ((x + 2 ^ 31) mod 2 ^ 32 = (y + 2 ^ 31) mod 2 ^ 32) as Hm by lia.
  rewrite <- (Z.add_simpl_r x (2 ^ 31)), <- (Z.add_simpl_r y (2 ^ 31)).
  rewrite <- (Zminus_mod_idemp_l (x + 2 ^ 31)), <- (Zminus_mod_idemp_l (y + 2 ^ 31)).
  by rewrite Hm.
Qed.

Lemma u8_shift_mod x k :
  0 <= k <= 24 ->
  u8 (Z.land (Z.shiftr (x mod 2 ^ 32) k) 255) = u8 (Z.land (Z.shiftr x k) 255).
Proof.
  intros Hk. f_equal.
  rewrite <- (Z.land_ones x 32) by lia.
  change 255 with (Z.ones 8). Z.bitblast.
Qed.

Lemma u8_shift_mod16 x k :
  0 <= k <= 8 ->
  u8 (Z.land (Z.shiftr (x mod 2 ^ 16) k) 255) = u8 (Z.land (Z.shiftr x k) 255).
Proof.
  intros Hk. f_equal.
  rewrite <- (Z.land_ones x 16) by lia.
  change 255 with (Z.ones 8). Z.bitblast.
Qed.

Lemma frame_mod usage counter value :
  frame usage counter (Some value)
  = frame (usage mod 2 ^ 32) (counter mod 2 ^ 16) (Some (value mod 2 ^ 32)).
Proof.
  rewrite !frame_bytes.
  by rewrite !u8_shift_mod, !u8_shift_mod16 by lia.
Qed.

(** X5. Two set frames are equal exactly when they carry the same usage and
    value as [int]s and the same counter as a 16-bit number: no two different
    requests share a frame, and nothing beyond those bits reaches it. *)
Theorem frame_injective usage counter value usage' counter' value' :
  frame usage counter (Some value) = frame usage' counter' (Some value')
  <-> to_int usage = to_int usage' /\
      counter mod 2 ^ 16 = counter' mod 2 ^ 16 /\
      to_int value = to_int value'.
Proof.
  split.
  - intros Heq. split_and!.
    + by rewrite <- (get_le32_frame_usage usage counter (Some value)), Heq,
        get_le32_frame_usage.
    + by rewrite <- (counter_of_frame usage counter (Some value)), Heq,
        counter_of_frame.
    + by rewrite <- (get_le32_frame_value usage counter value), Heq,
        get_le32_frame_value.
  - intros (Hu%to_int_inj_mod & Hc & Hv%to_int_inj_mod).
    rewrite (frame_mod usage), (frame_mod usage'). by rewrite Hu, Hc, Hv.
Qed.

(** ** More on the attribute layer *)

Section MoreAttributes.
Context `{eizo_h, kstrtox, hid_ll_driver}.

#[local] Arguments Z.ltb : simpl never.
#[local] Arguments Z.opp : simpl never.
#[local] Arguments frame : simpl never.
#[local] Arguments write_back : simpl never.
#[local] Arguments Z.to_nat : simpl never.

(** X6. The handlers test the usage code with [usage < 0].  An attribute
    whose code in eizo.h has bit 31 set therefore behaves like an unknown
    name: as an [int] the code is negative, and both handlers are the bare
    return of -EINVAL. *)
Theorem top_bit_usage_code_rejected attr_name code buf count value :
  (attr_name, code) ∈ [("brightness", EIZO_USAGE_BRIGHTNESS);
                       ("power", EIZO_USAGE_POWER);
                       ("gamma", EIZO_USAGE_GAMMA);
                       ("profile", EIZO_USAGE_PROFILE)] ->
  2 ^ 31 <= code < 2 ^ 32 ->
  to_usage attr_name = code - 2 ^ 32 /\
  eizo_attr_store attr_name buf count = Ret (- EINVAL) /\
  eizo_attr_show attr_name buf value = Ret (- EINVAL, buf).
Proof.
  intros Hin Hcode.
  assert (to_usage attr_name = code - 2 ^ 32) as Husage.
  { unfold to_usage.
    inv_elem_of Hin; cbn; unfold to_int;
      rewrite <- (Z_mod_plus_full _ (-1)), Z.mod_small by lia; lia. }
  split; [done|].
  assert ((to_usage attr_name <? 0) = true) as Hneg by (apply Z.ltb_lt; lia).
  split.
  - unfold eizo_attr_store. rewrite Hneg.
    destruct (kstrtoint buf 10) as [res v]. by destruct (res <? 0).
  - unfold eizo_attr_show. by rewrite Hneg.
Qed.


End MoreAttributes.

(** ** Round trips on the echo device *)

Section Echo.
Context `{eizo_h, kstrtox}.

#[local] Arguments Z.ltb : simpl never.
#[local] Arguments Z.opp : simpl never.
#[local] Arguments frame : simpl never.
#[local] Arguments write_back : simpl never.
#[local] Arguments Z.to_nat : simpl never.
#[local] Arguments sprintf_d_nl : simpl never.

Lemma write_back_whole data report :
  length data = 39%nat -> length report = 39%nat ->
  write_back (Z.to_nat 39) data report = data.
Proof.
  intros Hdata Hreport. unfold write_back. change (Z.to_nat 39) with 39%nat.
  rewrite take_ge by lia. rewrite drop_ge by lia. apply app_nil_r.
Qed.

(** A set on an echo device that answers: the frame is stored. *)
Lemma echo_run_set usage value d mem st :
  lock d = false -> (39 <= mem)%nat -> rets st = [] ->
  run (eizo_set_value usage value) (echo_world d mem st)
  = Some (0,
          echo_world d mem
            (EchoState (frame usage (to_ushort (counter d)) (Some value)) []),
          [EvAlloc 39 true; EvLock;
           EvRaw (RawCall 2 (frame usage (to_ushort (counter d)) (Some value))
                          39 HID_FEATURE_REPORT HID_REQ_SET_REPORT)
                 39 (frame usage (to_ushort (counter d)) (Some value));
           EvWait; EvUnlock; EvFree 39]).
Proof.
  intros Hl Hm Hrets. destruct d as [lk cnt]. cbn in Hl. subst lk.
  destruct st as [stored rets]. cbn in Hrets. subst rets.
  rewrite (@run_set_sent echo_driver usage value _ (EizoData false cnt) 39 []
             (EchoState (frame usage (to_ushort cnt) (Some value)) []));
    [|reflexivity|reflexivity|exact Hm|reflexivity].
  cbn [buf counter]. by rewrite write_back_nil.
Qed.

(** A get on an echo device that answers: the value bytes of the stored
    report, when it has the length of a report. *)
Lemma echo_run_get usage value d mem stored :
  lock d = false -> (39 <= mem)%nat -> length stored = 39%nat ->
  exists evs,
    run (eizo_get_value usage value) (echo_world d mem (EchoState stored []))
    = Some ((0, get_le32 stored 7), echo_world d mem (EchoState stored []), evs) /\
    length (raw_calls evs) = 2%nat.
Proof.
  intros Hl Hm Hlen. destruct d as [lk cnt]. cbn in Hl. subst lk.
  eexists.
  rewrite (@run_get_read echo_driver usage value _ (EizoData false cnt)
             39 [] (EchoState stored []) 39 stored (EchoState stored []));
    [|reflexivity|reflexivity|exact Hm|reflexivity|lia|reflexivity].
  cbn [buf counter]. rewrite write_back_nil.
  rewrite write_back_whole by (done || apply length_frame).
  split; reflexivity.
Qed.

(** X8. On a transport that stores what is written on report 2 and hands it
    back on a read of report 3, a get after a set returns the value that was
    set, for every usage and every [int] value, and the device is left as
    the set left it. *)
Theorem echo_get_after_set usage value value0 d mem st :
  lock d = false -> (39 <= mem)%nat -> rets st = [] -> is_int value ->
  exists w1 evs1 evs2,
    run (eizo_set_value usage value) (echo_world d mem st) = Some (0, w1, evs1) /\
    run (eizo_get_value usage value0) w1 = Some ((0, value), w1, evs2).
Proof.
  intros Hl Hm Hrets Hvalue.
  destruct (echo_run_get usage value0 d mem
              (frame usage (to_ushort (counter d)) (Some value)) Hl Hm
              (length_frame _ _ _)) as (evs2 & Hget & _).
  eexists _, _, evs2. split; [by apply echo_run_set|].
  rewrite Hget. by rewrite get_le32_frame_value, to_int_id.
Qed.

(** X9. The same through the attribute layer: writing a text that parses to
    an [int] and then reading the attribute gives the decimal digits of that
    number and a newline. *)
Theorem echo_show_after_store attr_name buf count page value0 d mem st :
  0 <= (kstrtoint buf 10).1 -> is_int (kstrtoint buf 10).2 ->
  0 <= to_usage attr_name ->
  lock d = false -> (39 <= mem)%nat -> rets st = [] ->
  exists w1 evs1 evs2,
    run (eizo_attr_store attr_name buf count) (echo_world d mem st)
    = Some (count, w1, evs1) /\
    run (eizo_attr_show attr_name page value0) w1
    = Some ((Z.of_nat (String.length (sprintf_d_nl (kstrtoint buf 10).2)),
             sprintf_d_nl (kstrtoint buf 10).2), w1, evs2).
Proof.
  intros Hres Hvalue Husage Hl Hm Hrets.
  destruct (echo_run_get (to_usage attr_name) value0 d mem
              (frame (to_usage attr_name) (to_ushort (counter d))
                     (Some (kstrtoint buf 10).2)) Hl Hm
              (length_frame _ _ _)) as (evs2 & Hget & _).
  eexists _, _, evs2. split.
  - rewrite (@run_attr_store _ _ echo_driver) by done.
    rewrite echo_run_set by done. reflexivity.
  - rewrite (@run_attr_show _ echo_driver) by done.
    rewrite Hget. cbn [mbind option_bind fst snd].
    rewrite get_le32_frame_value, to_int_id by done. reflexivity.
Qed.

End Echo.

(** ** Probe and remove *)

Section Lifecycle.
Context `{hid_ll_driver}.

#[local] Arguments Z.ltb : simpl never.
#[local] Arguments Z.opp : simpl never.

(** The two accounts of the probe routine give the same return code. *)
Lemma probe_calls_retval env w :
  (eizo_hid_driver_probe_calls env).1 = (eizo_hid_driver_probe env w).1.
Proof.
  unfold eizo_hid_driver_probe_calls, eizo_hid_driver_probe.
  by repeat case_match.
Qed.

(** X10. The probe returns 0 exactly when the allocation succeeded and none
    of [hid_parse], [hid_hw_start], [hid_hw_open], [sysfs_create_group]
    returned a negative code; then the driver data is attached, with the
    mutex free and the counter at 1.  Otherwise it returns a negative code
    and the device is as before, so that a set on a device that had no
    driver data still finds none and returns -ENODATA. *)
Theorem probe_attaches_or_leaves_alone env w ret w' usage value :
  eizo_hid_driver_probe env w = (ret, w') ->
  (ret = 0 /\
   devm_kzalloc_ok env = true /\ 0 <= hid_parse_ret env /\
   0 <= hid_hw_start_ret env /\ 0 <= hid_hw_open_ret env /\
   0 <= sysfs_create_group_ret env /\
   w' = World (Some (EizoData false 1)) (free_mem w) (hw w)) \/
  (ret < 0 /\ w' = w /\
   (devm_kzalloc_ok env = false \/ hid_parse_ret env < 0 \/
    hid_hw_start_ret env < 0 \/ hid_hw_open_ret env < 0 \/
    sysfs_create_group_ret env < 0) /\
   (drvdata w = None ->
    run (eizo_set_value usage value) w'
    = Some (- ENODATA, w', [EvErr "failed to get eizo_data\n"]))).
Proof.
  unfold eizo_hid_driver_probe. intros Hprobe.
  destruct (devm_kzalloc_ok env); cbn [negb] in Hprobe.
  2:{ simplify_eq. right. split; [unfold ENOMEM; lia|]. split; [done|].
      split; [auto|]. apply run_set_nodata. }
  destruct (Z.ltb_spec (hid_parse_ret env) 0).
  { simplify_eq. right. split_and!; auto. apply run_set_nodata. }
  destruct (Z.ltb_spec (hid_hw_start_ret env) 0).
  { simplify_eq. right. split_and!; auto. apply run_set_nodata. }
  destruct (Z.ltb_spec (hid_hw_open_ret env) 0).
  { simplify_eq. right. split_and!; auto. apply run_set_nodata. }
  destruct (Z.ltb_spec (sysfs_create_group_ret env) 0).
  { simplify_eq. right. split_and!; auto 6. apply run_set_nodata. }
  simplify_eq. left. split_and!; done.
Qed.

(** X11. What the probe acquires it gives back in reverse order.  A failed
    probe ends holding nothing: [hid_hw_stop] is called exactly when
    [hid_hw_start] had succeeded, [hid_hw_close] exactly when [hid_hw_open]
    had.  A successful probe ends with the device started, opened, the
    attribute group created and the mutex initialised, and the remove
    routine releases the four, last acquired first. *)
Theorem probe_and_remove_balanced env :
  let '(ret, calls) := eizo_hid_driver_probe_calls env in
  (ret <> 0 -> held_after calls [] = Some []) /\
  (ret = 0 ->
   held_after calls [] = Some [Mutex; Group; Opened; Started] /\
   held_after (calls ++ eizo_hid_driver_remove) [] = Some []) /\
  (CallHidHwStop ∈ calls <->
   ret <> 0 /\ exists r, 0 <= r /\ CallHidHwStart r ∈ calls) /\
  (CallHidHwClose ∈ calls <->
   ret <> 0 /\ exists r, 0 <= r /\ CallHidHwOpen r ∈ calls).
Proof.
  unfold eizo_hid_driver_probe_calls.
  destruct (devm_kzalloc_ok env); cbn [negb].
  2:{ split_and!; [done|done|..]; (split; [intros Hin|intros (_ & r & _ & Hin)]);
        cbn in Hin; inv_elem_of Hin. }
  destruct (hid_parse_ret env <? 0) eqn:Eparse.
  { apply Z.ltb_lt in Eparse as Hparse.
    split_and!; [done|intros ?; lia|..];
      (split; [intros Hin|intros (_ & r & _ & Hin)]);
        cbn in Hin; inv_elem_of Hin. }
  destruct (hid_hw_start_ret env <? 0) eqn:Estart.
  { apply Z.ltb_lt in Estart as Hstart.
    split_and!; [cbn; by rewrite Estart|intros ?; lia|..];
      (split; [intros Hin|intros (_ & r & Hr & Hin)]);
        cbn in Hin; inv_elem_of Hin; lia. }
  apply Z.ltb_ge in Estart as Hstart.
  destruct (hid_hw_open_ret env <? 0) eqn:Eopen.
  { apply Z.ltb_lt in Eopen as Hopen.
    split_and!; [cbn; by rewrite Estart, Eopen|intros ?; lia|..]; split.
    - intros _. split; [lia|]. exists (hid_hw_start_ret env).
      split; [done|]. cbn. do 2 right; left.
    - intros _. cbn. do 5 right; left.
    - intros Hin. cbn in Hin. inv_elem_of Hin.
    - intros (_ & r & Hr & Hin). cbn in Hin. inv_elem_of Hin. lia. }
  apply Z.ltb_ge in Eopen as Hopen.
  destruct (sysfs_create_group_ret env <? 0) eqn:Egroup.
  { apply Z.ltb_lt in Egroup as Hgroup.
    split_and!; [cbn; by rewrite Estart, Eopen, Egroup|intros ?; lia|..]; split.
    - intros _. split; [lia|]. exists (hid_hw_start_ret env).
      split; [done|]. cbn. do 2 right; left.
    - intros _. cbn. do 7 right; left.
    - intros _. split; [lia|]. exists (hid_hw_open_ret env).
      split; [done|]. cbn. do 3 right; left.
    - intros _. cbn. do 6 right; left. }
  split_and!.
  - done.
  - intros _. cbn. by rewrite Estart, Eopen, Egroup.
  - split; [intros Hin|intros (? & _)]; [|done]. cbn in Hin. inv_elem_of Hin.
  - split; [intros Hin|intros (? & _)]; [|done]. cbn in Hin. inv_elem_of Hin.
Qed.

End Lifecycle.

(** ** Progress of the threads *)

Section Progress.
Context `{hid_ll_driver}.

#[local] Arguments write_back : simpl never.
#[local] Arguments Z.to_nat : simpl never.
#[local] Arguments Z.ltb : simpl never.
#[local] Arguments replicate : simpl never.
#[local] Arguments frame : simpl never.

Lemma lock_held_dec w : lock_held w \/ ~ lock_held w.
Proof.
  unfold lock_held. destruct (drvdata w) as [[[] cnt]|].
  - left. by eexists.
  - right. intros (d & ? & ?). by simplify_eq.
  - right. intros (d & ? & ?). by simplify_eq.
Qed.

(** A kernel call goes through unless it is a lock on a held mutex or an
    unlock of a free one. *)
Lemma exec_cmd_enabled {X : Type} (c : cmd X) w :
  is_Some (drvdata w) ->
  (kind c = KLock -> ~ lock_held w) ->
  (kind c = KUnlock -> lock_held w) ->
  is_Some (exec_cmd c w).
Proof.
  intros [d Hd] Hlock Hunlock. destruct c; cbn; try done.
  - by case_decide.
  - rewrite Hd. cbn. destruct (lock d) eqn:Hl.
    + exfalso. apply Hlock; [done|]. by exists d.
    + unfold with_lock. by rewrite Hd.
  - rewrite Hd. cbn. destruct (lock d) eqn:Hl.
    + unfold with_lock. by rewrite Hd.
    + destruct Hunlock as (d' & ? & ?); [done|]. simplify_eq. congruence.
  - by rewrite Hd.
  - by destruct (raw_request (hw w) c) as [[ret data] h].
Qed.

(** No kernel call removes the driver data or changes the counter, and only
    an unlock frees the mutex. *)
Lemma exec_cmd_drvdata {X : Type} (c : cmd X) w x w' evs :
  exec_cmd c w = Some (x, w', evs) ->
  counter <$> drvdata w' = counter <$> drvdata w /\
  (kind c = KUnlock -> ~ lock_held w').
Proof.
  destruct c; cbn; try (intros; simplify_eq; by split).
  - case_decide; intros; simplify_eq; by split.
  - unfold with_lock. destruct (drvdata w) as [d|] eqn:Hd; [|done]. cbn.
    destruct (lock d); [done|]. intros; simplify_eq. by split.
  - unfold with_lock, lock_held. destruct (drvdata w) as [d|] eqn:Hd; [|done]. cbn.
    destruct (lock d); [|done]. intros; simplify_eq. split; [reflexivity|].
    intros _ (d' & ? & ?). cbn in *. by simplify_eq.
  - destruct (drvdata w) as [d|] eqn:Hd; [|done]. cbn.
    intros; simplify_eq. split; [by rewrite Hd|done].
  - destruct (raw_request (hw w) c) as [[ret data] h].
    intros; simplify_eq. by split.
Qed.

Lemma inv_live_init os w d :
  drvdata w = Some d -> lock d = false ->
  inv_live os (replicate (length os) Before) (Config (op_thread <$> os) w []).
Proof.
  intros Hd Hl. split; [apply inv_init|]. split; [by eexists|].
  intros (d' & ? & ?). cbn in *. simplify_eq. congruence.
Qed.

Lemma inv_live_step os phs cfg i cfg' :
  inv_live os phs cfg -> thread_step i cfg = Some cfg' ->
  exists phs', inv_live os phs' cfg'.
Proof.
  intros (Hinv & Hdata & Hin) Hstep. destruct cfg as [ts w lg].
  cbn [shared] in Hdata, Hin.
  unfold thread_step in Hstep. cbn [pool shared log] in Hstep.
  destruct (ts !! i) as [[A p]|] eqn:Hti; [|done]. cbn in Hstep.
  destruct p as [a|X c k]; [done|].
  destruct (exec_cmd c w) as [[[x w1] evs]|] eqn:Hexec; [|done].
  cbn in Hstep. simplify_eq.
  destruct (phs !! i) as [ph|] eqn:Hph.
  2:{ apply lookup_ge_None in Hph. apply lookup_lt_Some in Hti.
      pose proof (inv_len _ _ _ Hinv) as Hlen. cbn in Hlen. lia. }
  apply lookup_lt_Some in Hph as Hlt.
  destruct (inv_thread _ _ _ Hinv i ph _ Hph Hti) as (o & Ho & Hcs).
  pose proof (exec_cmd_post _ _ _ _ _ Hexec) as Hpost.
  pose proof (exec_cmd_events _ _ _ _ _ Hexec) as Hev.
  pose proof (exec_cmd_drvdata _ _ _ _ _ Hexec) as (Hcnt & Hunl).
  assert (is_Some (drvdata w1)) as Hdata1.
  { destruct Hdata as [d Hd]. rewrite Hd in Hcnt.
    destruct (drvdata w1); [by eexists|done]. }
  assert (drvdata w1 = drvdata w -> lock_held w1 ->
          exists j, phs !! j = Some Inside) as Hsame.
  { intros Heq Hheld. apply Hin. unfold lock_held in *. by rewrite <- Heq. }
  destruct ph; cbn in Hcs.
  - destruct (kind c) eqn:Hk; try done.
    + destruct Hev as (-> & Hfree & Hheld).
      exists (<[i := Inside]> phs). split; [|split; [done|]].
      * eapply inv_lock; eauto. exists o. split; [done|]. apply Hcs.
      * intros _. exists i. by apply list_lookup_insert_eq.
    + destruct Hev as (Hdrv & Hq).
      exists phs. split; [|split; [done|by apply Hsame]].
      eapply inv_quiet; eauto. exists o. split; [done|]. by apply Hcs.
  - destruct (kind c) eqn:Hk; try done.
    + subst evs. exists (<[i := After]> phs). split; [|split; [done|]].
      * eapply inv_unlock; eauto. exists o. split; [done|]. apply Hcs.
      * intros Hheld. by apply Hunl in Hheld.
    + destruct Hcs as (Hc & Hcs). destruct Hev as ((ret & out & ->) & Hdrv).
      exists phs. split; [|split; [done|by apply Hsame]].
      eapply inv_raw; eauto. by apply Hcs.
    + destruct Hev as (Hdrv & Hq).
      exists phs. split; [|split; [done|by apply Hsame]].
      eapply inv_quiet; eauto. exists o. split; [done|]. by apply Hcs.
  - destruct Hcs as (Hk & Hcs). rewrite Hk in Hev. destruct Hev as (Hdrv & Hq).
    exists phs. split; [|split; [done|by apply Hsame]].
    eapply inv_quiet; eauto. exists o. split; [done|]. by apply Hcs.
Qed.

Lemma inv_live_interleave os sched phs cfg cfg' :
  inv_live os phs cfg -> interleave sched cfg = Some cfg' ->
  exists phs', inv_live os phs' cfg'.
Proof.
  revert phs cfg. induction sched as [|i sched IH]; intros phs cfg Hinv Hrun.
  - cbn in Hrun. simplify_eq. eauto.
  - cbn in Hrun. destruct (thread_step i cfg) as [cfg1|] eqn:Hstep; [|done].
    cbn in Hrun. destruct (inv_live_step _ _ _ _ _ Hinv Hstep) as (phs1 & Hinv1).
    eauto.
Qed.

(** A thread that has not returned and does not wait for a held mutex can
    take its step. *)
Lemma thread_can_step os phs cfg i ph A (p : prog A) :
  inv_live os phs cfg ->
  phs !! i = Some ph -> pool cfg !! i = Some (Thread p) ->
  returned (Thread p) = false ->
  (ph = Inside \/ ~ lock_held (shared cfg)) ->
  is_Some (thread_step i cfg).
Proof.
  intros (Hinv & Hdata & Hin) Hph Hti Hret Hfree.
  destruct p as [a|X c k]; [done|].
  destruct (inv_thread _ _ _ Hinv i ph _ Hph Hti) as (o & Ho & Hcs).
  assert (is_Some (exec_cmd c (shared cfg))) as [[[x w1] evs] Hexec].
  { apply exec_cmd_enabled; [done|..].
    - intros Hk. destruct ph; cbn in Hcs; rewrite Hk in Hcs.
      + destruct Hfree as [?|?]; done.
      + done.
      + by destruct Hcs.
    - intros Hk. destruct ph; cbn in Hcs; rewrite Hk in Hcs.
      + done.
      + by destruct (inv_inside _ _ _ Hinv i Hph).
      + by destruct Hcs. }
  unfold thread_step. rewrite Hti. cbn. rewrite Hexec. by eexists.
Qed.

Lemma in_cs_not_returned P A (p : prog A) :
  in_cs P p -> returned (Thread p) = false.
Proof. by destruct p. Qed.

(** X12. Threads running set and get operations on an attached device whose
    mutex is free never deadlock: at every point of every interleaving,
    either all threads have returned or some thread can take its next
    step. *)
Theorem no_deadlock os w d sched cfg :
  drvdata w = Some d -> lock d = false ->
  interleave sched (Config (op_thread <$> os) w []) = Some cfg ->
  Forall returned (pool cfg) \/ exists i, is_Some (thread_step i cfg).
Proof.
  intros Hd Hl Hrun.
  destruct (inv_live_interleave os sched _ _ _ (inv_live_init os w d Hd Hl) Hrun)
    as (phs & Hlive).
  pose proof Hlive as (Hinv & Hdata & Hin).
  pose proof (inv_len _ _ _ Hinv) as Hlen.
  destruct (lock_held_dec (shared cfg)) as [Hheld|Hfree].
  - right. destruct (Hin Hheld) as (i & Hph). exists i.
    destruct (pool cfg !! i) as [[A p]|] eqn:Hti.
    2:{ apply lookup_ge_None in Hti. apply lookup_lt_Some in Hph. lia. }
    destruct (inv_thread _ _ _ Hinv i Inside _ Hph Hti) as (o & _ & Hcs).
    eapply thread_can_step; eauto. by eapply in_cs_not_returned.
  - destruct (decide (Forall returned (pool cfg))) as [Hall|Hsome]; [by left|].
    right. apply not_Forall_Exists in Hsome; [|apply _].
    apply Exists_exists in Hsome as ([A p] & Hin' & Hret).
    apply list_elem_of_lookup in Hin' as (i & Hti). exists i.
    destruct (phs !! i) as [ph|] eqn:Hph.
    2:{ apply lookup_ge_None in Hph. apply lookup_lt_Some in Hti. lia. }
    assert (returned (Thread p) = false) as Hret'.
    { destruct p as [a|X c k]; [|done]. exfalso. by apply Hret. }
    eapply thread_can_step; eauto.
Qed.

Lemma thread_step_counter i cfg cfg' :
  thread_step i cfg = Some cfg' ->
  counter <$> drvdata (shared cfg') = counter <$> drvdata (shared cfg).
Proof.
  unfold thread_step. intros Hstep.
  destruct (pool cfg !! i) as [[A p]|]; [|done]. cbn in Hstep.
  destruct p as [a|X c k]; [done|].
  destruct (exec_cmd c (shared cfg)) as [[[x w1] evs]|] eqn:Hexec; [|done].
  cbn in Hstep. simplify_eq. cbn.
  by apply exec_cmd_drvdata in Hexec as [? _].
Qed.

Lemma interleave_counter sched cfg cfg' :
  interleave sched cfg = Some cfg' ->
  counter <$> drvdata (shared cfg') = counter <$> drvdata (shared cfg).
Proof.
  revert cfg. induction sched as [|i sched IH]; intros cfg Hrun.
  - cbn in Hrun. by simplify_eq.
  - cbn in Hrun. destruct (thread_step i cfg) as [cfg1|] eqn:Hstep; [|done].
    cbn in Hrun. rewrite (IH _ Hrun). by eapply thread_step_counter.
Qed.

(** X13. When all threads of an interleaving have returned, the driver data
    is exactly as it was at the start: the mutex is free again and the
    counter unchanged. *)
Theorem all_returned_mutex_free os w d sched cfg :
  drvdata w = Some d -> lock d = false ->
  interleave sched (Config (op_thread <$> os) w []) = Some cfg ->
  Forall returned (pool cfg) ->
  drvdata (shared cfg) = Some d.
Proof.
  intros Hd Hl Hrun Hall.
  destruct (inv_live_interleave os sched _ _ _ (inv_live_init os w d Hd Hl) Hrun)
    as (phs & Hinv & Hdata & Hin).
  apply interleave_counter in Hrun as Hcnt. cbn in Hcnt.
  rewrite Hd in Hcnt. destruct Hdata as [[lk cnt] Hd']. rewrite Hd' in Hcnt |- *.
  cbn in Hcnt. destruct d as [lk0 cnt0]. cbn in Hl. simplify_eq.
  destruct lk; [|done]. exfalso.
  destruct Hin as (i & Hph); [by eexists|].
  pose proof (inv_len _ _ _ Hinv) as Hlen.
  destruct (pool cfg !! i) as [[A p]|] eqn:Hti.
  2:{ apply lookup_ge_None in Hti. apply lookup_lt_Some in Hph. lia. }
  destruct (inv_thread _ _ _ Hinv i Inside _ Hph Hti) as (o & _ & Hcs).
  apply in_cs_not_returned in Hcs.
  rewrite Forall_forall in Hall.
  assert (Is_true (returned (Thread p))) as Hret.
  { apply Hall. by eapply list_elem_of_lookup_2. }
  by rewrite Hcs in Hret.
Qed.

(** *** How long an interleaving can be *)

Lemma op_prog_bounded o : bounded (op_max_steps o) (op_prog o).
Proof.
  destruct o as [usage value|usage value]; cbn.
  - intros [[]|]; cbn; [|done]. intros [report|]; cbn; [|done].
    intros _ counter [ret report'] _. destruct (ret <? 0); cbn; done.
  - intros [[]|]; cbn; [|done]. intros [report|]; cbn; [|done].
    intros _ counter [ret report'] _. destruct (ret <? 0); cbn; [done|].
    intros [ret' report''] _. destruct (ret' <? 0); cbn; done.
Qed.

Lemma sum_list_insert (ns : list nat) i n m :
  ns !! i = Some n ->
  (sum_list (<[i := m]> ns) + n = sum_list ns + m)%nat.
Proof.
  revert i. induction ns as [|a ns IH]; intros [|i] Hi; try done.
  - cbn in Hi. simplify_eq.
    change (<[0%nat := m]> (n :: ns)) with (m :: ns).
    cbn [sum_list_with id]. lia.
  - cbn in Hi. specialize (IH i Hi).
    change (<[S i := m]> (a :: ns)) with (a :: <[i := m]> ns).
    cbn [sum_list_with id]. lia.
Qed.

Lemma thread_step_bounded ns i cfg cfg' :
  Forall2 thread_bounded ns (pool cfg) ->
  thread_step i cfg = Some cfg' ->
  exists ns', Forall2 thread_bounded ns' (pool cfg') /\
              S (sum_list ns') = sum_list ns.
Proof.
  intros Hall Hstep. unfold thread_step in Hstep.
  destruct (pool cfg !! i) as [[A p]|] eqn:Hti; [|done]. cbn in Hstep.
  destruct p as [a|X c k]; [done|].
  destruct (exec_cmd c (shared cfg)) as [[[x w1] evs]|] eqn:Hexec; [|done].
  cbn in Hstep. simplify_eq. cbn [pool].
  destruct (Forall2_lookup_r _ _ _ _ _ Hall Hti) as (n & Hn & Hb).
  cbn in Hb. destruct n as [|n]; [done|].
  exists (<[i := n]> ns). split.
  - apply Forall2_insert; [done|]. apply Hb.
  - pose proof (sum_list_insert ns i (S n) n Hn). lia.
Qed.

Lemma interleave_bounded ns sched cfg cfg' :
  Forall2 thread_bounded ns (pool cfg) ->
  interleave sched cfg = Some cfg' ->
  (length sched <= sum_list ns)%nat.
Proof.
  revert ns cfg. induction sched as [|i sched IH]; intros ns cfg Hall Hrun.
  - cbn. lia.
  - cbn in Hrun. destruct (thread_step i cfg) as [cfg1|] eqn:Hstep; [|done].
    cbn in Hrun.
    destruct (thread_step_bounded _ _ _ _ Hall Hstep) as (ns' & Hall' & Hsum).
    specialize (IH _ _ Hall' Hrun). cbn. lia.
Qed.

(** X14. No interleaving goes on for ever: it has at most 9 steps for each
    set and 11 for each get among its threads. *)
Theorem interleavings_are_short os w sched cfg :
  interleave sched (Config (op_thread <$> os) w []) = Some cfg ->
  (length sched <= sum_list (op_max_steps <$> os))%nat.
Proof.
  apply interleave_bounded. cbn.
  apply Forall2_fmap, Forall_Forall2_diag, Forall_forall.
  intros o _. apply op_prog_bounded.
Qed.

End Progress.

(** ** The further properties at work *)

Lemma operations_leave_no_trace_witness :
  exists rs w' evs,
    run_ops two_ops (attached_world [39; -5]) = Some (rs, w', evs) /\
    length rs = 2%nat /\
    drvdata w' = Some (EizoData false 1) /\
    free_mem w' = 128%nat /\
    (length (raw_calls evs) <= 3)%nat.
Proof.
  eexists _, _, _. split; [vm_compute; reflexivity|].
  apply (@operations_leave_no_trace echo_driver two_ops (attached_world [39; -5])).
  vm_compute. reflexivity.
Defined.

Lemma transport_calls_well_formed_witness :
  exists r w' evs,
    run (op_prog (OpGet 0x00520001 0)) (attached_world [39; -5])
    = Some (r, w', evs) /\
    under_lock None (pair 0%nat <$> evs) /\
    waits_follow evs /\
    forall c, c ∈ raw_calls evs -> op_call (OpGet 0x00520001 0) c.
Proof.
  eexists _, _, _. split; [vm_compute; reflexivity|].
  eapply (@transport_calls_well_formed echo_driver (OpGet 0x00520001 0)
            (attached_world [39; -5])).
  vm_compute. reflexivity.
Defined.

(** A read from a device that holds the frame of brightness 150. *)
Lemma get_returns_reply_value_witness :
  exists w' evs,
    run (eizo_get_value 0x00520001 0)
        (echo_world (EizoData false 1) 128
           (EchoState (frame 0x00520001 1 (Some 150)) []))
    = Some ((0, 150), w', evs).
Proof.
  apply (@get_returns_reply_value echo_driver 0x00520001 0
           (echo_world (EizoData false 1) 128
              (EchoState (frame 0x00520001 1 (Some 150)) []))
           (EizoData false 1) 39 []
           (EchoState (frame 0x00520001 1 (Some 150)) [])
           39 (frame 0x00520001 1 (Some 150))
           (EchoState (frame 0x00520001 1 (Some 150)) [])).
  - reflexivity.
  - reflexivity.
  - vm_compute. lia.
  - reflexivity.
  - lia.
  - reflexivity.
  - lia.
  - vm_compute. lia.
Defined.

(** A read from a device that holds nothing and answers with no bytes. *)
Lemma get_short_reply_gives_zero_witness :
  exists w' evs,
    run (eizo_get_value 0x00520001 7) (attached_world [0; 0])
    = Some ((0, 0), w', evs).
Proof.
  apply (@get_short_reply_gives_zero echo_driver 0x00520001 7
           (attached_world [0; 0]) (EizoData false 1)
           0 [] (EchoState [] [0]) 0 [] (EchoState [] [])).
  - reflexivity.
  - reflexivity.
  - vm_compute. lia.
  - reflexivity.
  - lia.
  - reflexivity.
  - lia.
  - vm_compute. lia.
  - vm_compute. lia.
Defined.

Lemma top_bit_usage_code_rejected_witness :
  @to_usage vendor_page_eizo_h "brightness" = 0xff300052 - 2 ^ 32 /\
  @eizo_attr_store vendor_page_eizo_h linux_kstrtox "brightness" "150" 4
  = Ret (- EINVAL) /\
  @eizo_attr_show vendor_page_eizo_h "brightness" "150" 0
  = Ret (- EINVAL, "150").
Proof.
  apply (@top_bit_usage_code_rejected vendor_page_eizo_h linux_kstrtox
           "brightness" 0xff300052 "150" 4 0).
  - left.
  - lia.
Defined.


Lemma echo_get_after_set_witness :
  exists w1 evs1 evs2,
    run (eizo_set_value 0x00520001 (-7))
        (echo_world (EizoData false 1) 64 (EchoState [] []))
    = Some (0, w1, evs1) /\
    run (eizo_get_value 0x00520001 0) w1 = Some ((0, -7), w1, evs2).
Proof.
  apply (@echo_get_after_set 0x00520001 (-7) 0 (EizoData false 1) 64
           (EchoState [] [])).
  - reflexivity.
  - lia.
  - reflexivity.
  - unfold is_int. lia.
Defined.

Lemma echo_show_after_store_witness :
  exists w1 evs1 evs2,
    run (@eizo_attr_store sample_eizo_h linux_kstrtox "gamma" "42" 3)
        (echo_world (EizoData false 1) 64 (EchoState [] []))
    = Some (3, w1, evs1) /\
    run (@eizo_attr_show sample_eizo_h "gamma" "" 0) w1
    = Some ((3, "42" +:+ String "010"%char EmptyString), w1, evs2).
Proof.
  apply (@echo_show_after_store sample_eizo_h linux_kstrtox "gamma" "42" 3 "" 0
           (EizoData false 1) 64 (EchoState [] [])).
  - vm_compute. discriminate.
  - unfold is_int. vm_compute. split; [discriminate|reflexivity].
  - vm_compute. discriminate.
  - reflexivity.
  - lia.
  - reflexivity.
Defined.

(** A probe in which [hid_hw_open] fails. *)
Lemma probe_attaches_or_leaves_alone_witness :
  (-5 = 0 /\
   true = true /\ 0 <= 0 /\ 0 <= 0 /\ 0 <= -5 /\ 0 <= 0 /\
   detached_world = @World echo_driver (Some (EizoData false 1)) 128
                      (EchoState [] [])) \/
  (-5 < 0 /\ detached_world = detached_world /\
   (true = false \/ 0 < 0 \/ 0 < 0 \/ -5 < 0 \/ 0 < 0) /\
   (drvdata detached_world = None ->
    run (eizo_set_value 0x00520001 150) detached_world
    = Some (- ENODATA, detached_world, [EvErr "failed to get eizo_data\n"]))).
Proof.
  apply (@probe_attaches_or_leaves_alone echo_driver
           (ProbeEnv true 0 0 (-5) 0) detached_world (-5) detached_world
           0x00520001 150).
  reflexivity.
Defined.

Lemma no_deadlock_witness :
  exists cfg,
    interleave [0; 1; 0; 1; 0]%nat
      (Config (op_thread <$> two_ops) (attached_world []) []) = Some cfg /\
    (Forall returned (pool cfg) \/ exists i, is_Some (thread_step i cfg)).
Proof.
  eexists. split; [reflexivity|].
  apply (@no_deadlock echo_driver two_ops (attached_world []) (EizoData false 1)
           [0; 1; 0; 1; 0]%nat).
  - reflexivity.
  - reflexivity.
  - reflexivity.
Defined.

Lemma all_returned_mutex_free_witness :
  exists cfg,
    interleave two_ops_sched
      (Config (op_thread <$> two_ops) (attached_world []) []) = Some cfg /\
    drvdata (shared cfg) = Some (EizoData false 1).
Proof.
  eexists. split; [vm_compute; reflexivity|].
  apply (@all_returned_mutex_free echo_driver two_ops (attached_world [])
           (EizoData false 1) two_ops_sched).
  - reflexivity.
  - reflexivity.
  - vm_compute. reflexivity.
  - repeat constructor.
Defined.

Lemma interleavings_are_short_witness :
  (length two_ops_sched <= 20)%nat.
Proof.
  eapply (@interleavings_are_short echo_driver two_ops (attached_world [])
            two_ops_sched).
  vm_compute. reflexivity.
Defined.
